(** * IAM -> Rucio synchronisation script: a shallow embedding

    Source: [iam-rucio-sync/sync_iam_rucio.py], class [IAM_RUCIO_SYNC].

    The script fetches every user of an IAM (SCIM) directory page by page
    and then sweeps the list three times, creating Rucio accounts, OIDC
    identities and X509 identities.  The Rucio core library and the IAM
    server are external: they are modelled as interfaces (type classes)
    whose operations take and return an explicit state and may raise.
    Every call made through such an interface is appended to a trace, so
    that statements on what the script asks of its collaborators are
    statements on that trace.

    Embedded here: [make_gridmap_compatible], [get_list_of_users],
    [sync_accounts], [sync_oidc], [sync_x509], [configure], [get_token]
    and the [__main__] sequence.  The [logging] calls, which do not
    change what the script does, are left out.  Python integers are [Z];
    strings are [string]; a user record is the typed part of the JSON
    object that the script reads. *)

From Stdlib Require Import String Ascii List ZArith Lia Bool Arith.
Import ListNotations.
Local Open Scope string_scope.
Local Open Scope list_scope.

(** ** Python strings *)

Module PyStr.

(** [s.split(sep)] for a one-character separator: the pieces between
    the occurrences of [sep]; never the empty list ([''.split(',')] is
    [['']]). *)
Fixpoint split (sep : ascii) (s : string) : list string :=
  match s with
  | EmptyString => [EmptyString]
  | String c rest =>
      if Ascii.eqb c sep then EmptyString :: split sep rest
      else match split sep rest with
           | [] => [String c EmptyString]
           | piece :: pieces => String c piece :: pieces
           end
  end.

(** [sep.join(l)]. *)
Definition join (sep : string) (l : list string) : string :=
  String.concat sep l.

(** [c in s] for a character. *)
Fixpoint contains (c : ascii) (s : string) : bool :=
  match s with
  | EmptyString => false
  | String d rest => Ascii.eqb d c || contains c rest
  end.

(** [len(s)], a Python integer. *)
Definition len (s : string) : Z := Z.of_nat (String.length s).

End PyStr.

(** ** DnTransformer *)

(** [IAM_RUCIO_SYNC.make_gridmap_compatible]:
<<
    certificate = certificate.split(',')
    certificate.reverse()
    certificate = '/'.join(certificate)
    certificate = '/' + certificate
>> *)
Definition make_gridmap_compatible (certificate : string) : string :=
  let certificate1 := PyStr.split "," certificate in
  let certificate2 := rev certificate1 in
  let certificate3 := PyStr.join "/" certificate2 in
  "/" ++ certificate3.

(** The specification's reading of "the components of [s] split on
    [',']": a non-empty sequence of comma-free pieces which, put back
    together with commas, is [s]. *)
Definition split_on_comma (s : string) (components : list string) : Prop :=
  components <> [] /\
  Forall (fun piece => PyStr.contains "," piece = false) components /\
  String.concat "," components = s.

(** The specification's [toCanonicalKey], from a given component
    sequence: reverse, join with ['/'], prepend ['/']. *)
Definition toCanonicalKey_of (components : list string) : string :=
  String "/" (String.concat "/" (rev components)).

(** ** Exceptions, results and the effect monad *)

(** The exceptions the script can meet: [IndexError] is raised by the
    script's own indexing; every exception of a collaborator is kept by
    its class name. *)
Inductive exn : Type :=
| IndexError
| Error (name : string).

Inductive result (A : Type) : Type :=
| Ok (a : A)
| Raise (e : exn).
Arguments Ok {A} a.
Arguments Raise {A} e.

(** A computation over a collaborator in state [St]: it ends normally or
    by raising, leaves the collaborator in a new state, and emits the
    events [Ev] of the calls it made, oldest first. *)
Definition M (St Ev A : Type) : Type := St -> result A * St * list Ev.

Section Monad.

Context {St Ev : Type}.

Definition ret {A} (a : A) : M St Ev A := fun s => (Ok a, s, []).

Definition raise {A} (e : exn) : M St Ev A := fun s => (Raise e, s, []).

Definition bind {A B} (m : M St Ev A) (k : A -> M St Ev B) : M St Ev B :=
  fun s =>
    match m s with
    | (Ok a, s1, t1) => let '(r, s2, t2) := k a s1 in (r, s2, t1 ++ t2)
    | (Raise e, s1, t1) => (Raise e, s1, t1)
    end.

(** [try: m except: handler] with a bare [except], which catches
    everything. *)
Definition try_except {A} (m : M St Ev A) (handler : exn -> M St Ev A)
  : M St Ev A :=
  fun s =>
    match m s with
    | (Ok a, s1, t1) => (Ok a, s1, t1)
    | (Raise e, s1, t1) =>
        let '(r, s2, t2) := handler e s1 in (r, s2, t1 ++ t2)
    end.

(** [for x in l: body]; [continue] is the normal end of [body]. *)
Fixpoint for_each {A} (l : list A) (body : A -> M St Ev unit)
  : M St Ev unit :=
  match l with
  | [] => ret tt
  | x :: rest => bind (body x) (fun _ => for_each rest body)
  end.

(** [l[i]] on a list, for an index [i >= 0]. *)
Definition index {A} (l : list A) (i : nat) : M St Ev A :=
  match nth_error l i with
  | Some x => ret x
  | None => raise IndexError
  end.

(** A call of a collaborator's operation [op], logged as [log r]. *)
Definition invoke {A} (op : St -> result A * St) (log : result A -> Ev)
  : M St Ev A :=
  fun s => let '(r, s1) := op s in (r, s1, [log r]).

Definition outcome {A} (x : result A * St * list Ev) : result A :=
  fst (fst x).
Definition final {A} (x : result A * St * list Ev) : St := snd (fst x).
Definition trace {A} (x : result A * St * list Ev) : list Ev := snd x.

(** Every run of [m] emits a trace in [P]. *)
Definition emits {A} (P : list Ev -> Prop) (m : M St Ev A) : Prop :=
  forall s, P (trace (m s)).

End Monad.

Declare Scope py_scope.
Delimit Scope py_scope with py.
Notation "x <- m ;; k" := (bind m (fun x => k))
  (at level 61, m at next level, right associativity) : py_scope.
Notation "m ;;; k" := (bind m (fun _ => k))
  (at level 61, right associativity) : py_scope.

(** ** Directory user records (SCIM) *)

(** The part of a user record the script reads: [userName], [emails],
    [id], and the optional extension object
    ['urn:indigo-dc:scim:schemas:IndigoUser'] with its optional
    [certificates], each with an optional [subjectDn].  A key the script
    tests with [in] is an [option]; a key it reads without a test is
    always there. *)
Module Scim.

Record email : Type := { value : string }.

Record certificate : Type := { subjectDn : option string }.

Record indigo_user : Type := { certificates : option (list certificate) }.

Record user : Type := {
  userName : string;
  emails : list email;
  id : string;
  IndigoUser : option indigo_user
}.

(** The JSON body of one page of [GET /scim/Users]. *)
Record response : Type := {
  Resources : list user;
  itemsPerPage : Z;
  totalResults : Z
}.

End Scim.

(** ** The Rucio core interface *)

Module Rucio.

Inductive AccountType : Type := USER | GROUP | SERVICE.

Inductive IdentityType : Type := X509 | GSS | USERPASS | SSH | SAML | OIDC.

Record InternalAccount : Type := mkInternalAccount { external : string }.

Record rse_obj : Type := { rse_id : string }.

(** The calls the script makes, with their arguments. *)
Inductive call : Type :=
| GetSession
| SessionConnection
| AccountExists (acc : InternalAccount)
| AddAccount (acc : InternalAccount) (type : AccountType) (email : string)
| ListRses
| SetLocalAccountLimit (acc : InternalAccount) (rse : string) (bytes : Z)
| AddAccountAttribute (acc : InternalAccount) (key val : string)
| AddAccountIdentity (identity : string) (type : IdentityType)
    (acc : InternalAccount) (email : string).

(** What a call came back with. *)
Inductive reply : Type :=
| Returned
| ReturnedBool (b : bool)
| ReturnedRses (l : list rse_obj)
| Raised (e : exn).

Inductive event : Type := Ev (c : call) (r : reply).

Definition event_call (ev : event) : call := let 'Ev c _ := ev in c.

(** [rucio.core] and the database session, over a state [St]. *)
Class Core (St : Type) : Type := {
  get_session : St -> result unit * St;
  session_connection : St -> result unit * St;
  account_exists : InternalAccount -> St -> result bool * St;
  add_account :
    InternalAccount -> AccountType -> string -> St -> result unit * St;
  list_rses : St -> result (list rse_obj) * St;
  set_local_account_limit :
    InternalAccount -> string -> Z -> St -> result unit * St;
  add_account_attribute :
    InternalAccount -> string -> string -> St -> result unit * St;
  add_account_identity :
    string -> IdentityType -> InternalAccount -> string ->
    St -> result unit * St
}.

Definition log_unit (c : call) (r : result unit) : event :=
  Ev c match r with Ok _ => Returned | Raise e => Raised e end.

Definition log_bool (c : call) (r : result bool) : event :=
  Ev c match r with Ok b => ReturnedBool b | Raise e => Raised e end.

Definition log_rses (c : call) (r : result (list rse_obj)) : event :=
  Ev c match r with Ok l => ReturnedRses l | Raise e => Raised e end.

End Rucio.

(** ** The synchronisation class *)

(** [self]: the settings [configure] resolves. *)
Record IAM_RUCIO_SYNC : Type := {
  iam_server : string;
  client_id : string;
  client_secret : string;
  token_server : string
}.

(** ["SUB={}, ISS={}".format(user_subject, iam_server)] on two strings. *)
Definition format_sub_iss (user_subject iam_server : string) : string :=
  "SUB=" ++ user_subject ++ ", ISS=" ++ iam_server.

Section Passes.

Import Scim Rucio.
Local Open Scope py_scope.

Context {St : Type} `{Core St}.

Local Abbreviation cmd := (M St event).

(** The logged calls of the store. *)
Definition call_get_session : cmd unit :=
  invoke get_session (log_unit GetSession).
Definition call_session_connection : cmd unit :=
  invoke session_connection (log_unit SessionConnection).
Definition call_account_exists (acc : InternalAccount) : cmd bool :=
  invoke (account_exists acc) (log_bool (AccountExists acc)).
Definition call_add_account (acc : InternalAccount) (type : AccountType)
  (email : string) : cmd unit :=
  invoke (add_account acc type email) (log_unit (AddAccount acc type email)).
Definition call_list_rses : cmd (list rse_obj) :=
  invoke list_rses (log_rses ListRses).
Definition call_set_local_account_limit (acc : InternalAccount)
  (rse : string) (bytes : Z) : cmd unit :=
  invoke (set_local_account_limit acc rse bytes)
         (log_unit (SetLocalAccountLimit acc rse bytes)).
Definition call_add_account_attribute (acc : InternalAccount)
  (key val : string) : cmd unit :=
  invoke (add_account_attribute acc key val)
         (log_unit (AddAccountAttribute acc key val)).
Definition call_add_account_identity (identity : string)
  (type : IdentityType) (acc : InternalAccount) (email : string)
  : cmd unit :=
  invoke (add_account_identity identity type acc email)
         (log_unit (AddAccountIdentity identity type acc email)).

(** The two lines every pass starts with:
<<
      session = get_session()
      session.connection()
>> *)
Definition open_session : cmd unit :=
  call_get_session ;;; call_session_connection.

(** The body of the loop of [sync_accounts] (lines 120-142). *)
Definition sync_accounts_body (user : Scim.user) : cmd unit :=
  let username := userName user in
  email0 <- index (emails user) 0 ;;
  let email := value email0 in
  if (PyStr.len username >? 25)%Z then ret tt
  else
    found <- call_account_exists (mkInternalAccount username) ;;
    if negb found then
      call_add_account (mkInternalAccount username) SERVICE email ;;;
      rses <- call_list_rses ;;
      for_each rses (fun rse_obj =>
        call_set_local_account_limit (mkInternalAccount username)
          (rse_id rse_obj) 1000000000000) ;;;
      try_except
        (call_add_account_attribute (mkInternalAccount username)
           "admin" "True")
        (fun _ => ret tt)
    else ret tt.

(** [IAM_RUCIO_SYNC.sync_accounts]. *)
Definition sync_accounts (self : IAM_RUCIO_SYNC)
  (iam_users : list Scim.user) : cmd unit :=
  open_session ;;;
  for_each iam_users sync_accounts_body.

(** The body of the loop of [sync_oidc] (lines 150-165). *)
Definition sync_oidc_body (self : IAM_RUCIO_SYNC) (user : Scim.user)
  : cmd unit :=
  let username := userName user in
  email0 <- index (emails user) 0 ;;
  let email := value email0 in
  let user_subject := id user in
  if (PyStr.len username >? 25)%Z then ret tt
  else
    try_except
      (let user_identity := format_sub_iss user_subject (iam_server self) in
       call_add_account_identity user_identity OIDC
         (mkInternalAccount username) email)
      (fun _ => ret tt).

(** [IAM_RUCIO_SYNC.sync_oidc]. *)
Definition sync_oidc (self : IAM_RUCIO_SYNC) (iam_users : list Scim.user)
  : cmd unit :=
  open_session ;;;
  for_each iam_users (sync_oidc_body self).

(** The body of the inner loop of [sync_x509] (lines 184-196). *)
Definition sync_x509_certificate (username email : string)
  (certificate : Scim.certificate) : cmd unit :=
  match Scim.subjectDn certificate with
  | Some dn =>
      let subjectDn := make_gridmap_compatible dn in
      try_except
        (call_add_account_identity subjectDn X509
           (mkInternalAccount username) email)
        (fun _ => ret tt)
  | None => ret tt
  end.

(** The body of the outer loop of [sync_x509] (lines 177-196). *)
Definition sync_x509_body (user : Scim.user) : cmd unit :=
  let username := userName user in
  email0 <- index (emails user) 0 ;;
  let email := value email0 in
  match IndigoUser user with
  | Some indigo_user =>
      match certificates indigo_user with
      | Some certs =>
          for_each certs (sync_x509_certificate username email)
      | None => ret tt
      end
  | None => ret tt
  end.

(** [IAM_RUCIO_SYNC.sync_x509]. *)
Definition sync_x509 (self : IAM_RUCIO_SYNC) (iam_users : list Scim.user)
  : cmd unit :=
  open_session ;;;
  for_each iam_users sync_x509_body.

End Passes.

(** ** The paginated fetch *)

Module Iam.

(** One [GET <iam-server>/scim/Users] with its bearer token and the
    query parameters [startIndex] and [count]. *)
Record request : Type := {
  url : string;
  bearer : string;
  startIndex : Z;
  count : Z
}.

(** The directory server, over a state [Srv]: the answer to a request,
    already parsed by [json.loads]; a transport failure, a body that is
    not JSON or one without the three keys the script reads raises. *)
Class Server (Srv : Type) : Type := {
  get_users : request -> Srv -> result Scim.response * Srv
}.

End Iam.

Section Fetch.

Import Scim Iam.
Local Open Scope py_scope.
Local Open Scope Z_scope.

Context {Srv : Type} `{Server Srv}.

Definition requests_get (rq : request) : M Srv request response :=
  invoke (get_users rq) (fun _ => rq).

(** The [while True] loop of [get_list_of_users] (lines 96-109), run for
    at most [fuel] iterations: [Some iam_users] when the loop reached
    its [break], [None] when it is still running after [fuel] requests. *)
Fixpoint get_list_of_users_loop (self : IAM_RUCIO_SYNC)
  (access_token : string) (count : Z) (fuel : nat)
  (startIndex users_so_far : Z) (iam_users : list user)
  : M Srv request (option (list user)) :=
  match fuel with
  | O => ret None
  | S fuel' =>
      response <- requests_get
        {| url := iam_server self ++ "/scim/Users";
           bearer := access_token;
           Iam.startIndex := startIndex;
           Iam.count := count |} ;;
      let iam_users := iam_users ++ Resources response in
      let users_so_far := users_so_far + itemsPerPage response in
      if users_so_far <? totalResults response then
        get_list_of_users_loop self access_token count fuel'
          (startIndex + count) users_so_far iam_users
      else ret (Some iam_users)
  end.

(** [IAM_RUCIO_SYNC.get_list_of_users]. *)
Definition get_list_of_users (fuel : nat) (self : IAM_RUCIO_SYNC)
  (access_token : string) : M Srv request (option (list user)) :=
  let startIndex := 1 in
  let count := 100 in
  let iam_users := [] in
  let users_so_far := 0 in
  get_list_of_users_loop self access_token count fuel
    startIndex users_so_far iam_users.

(** ceil(T / P) for a positive page size. *)
Definition ceil_div (T P : Z) : Z := (T + P - 1) / P.


End Fetch.

(** ** Reading a trace of store calls *)

Module Trace.

Import Rucio.

Definition same_account (a b : InternalAccount) : bool :=
  String.eqb (external a) (external b).

(** The call creates the account [acc]. *)
Definition creates (acc : InternalAccount) (c : call) : bool :=
  match c with
  | AddAccount a _ _ => same_account a acc
  | _ => false
  end.

(** The call grants [acc] a quota. *)
Definition grants (acc : InternalAccount) (c : call) : bool :=
  match c with
  | SetLocalAccountLimit a _ _ => same_account a acc
  | _ => false
  end.

(** The call attaches an attribute to [acc]. *)
Definition attaches (acc : InternalAccount) (c : call) : bool :=
  match c with
  | AddAccountAttribute a _ _ => same_account a acc
  | _ => false
  end.

(** The call links an identity. *)
Definition links (c : call) : bool :=
  match c with
  | AddAccountIdentity _ _ _ _ => true
  | _ => false
  end.

(** The call asks whether an account or an identity exists. *)
Definition probes (c : call) : bool :=
  match c with
  | AccountExists _ => true
  | _ => false
  end.

(** The event is the store answering that [acc] does not exist. *)
Definition found_absent (acc : InternalAccount) (ev : event) : bool :=
  match ev with
  | Ev (AccountExists a) (ReturnedBool false) => same_account a acc
  | _ => false
  end.

(** The event is a creation or a quota grant that raised. *)
Definition provisioning_failure (ev : event) : bool :=
  match ev with
  | Ev (AddAccount _ _ _) (Raised _) => true
  | Ev (SetLocalAccountLimit _ _ _) (Raised _) => true
  | _ => false
  end.

(** The account a call is about, if any. *)
Definition subject (c : call) : option InternalAccount :=
  match c with
  | AccountExists a | AddAccount a _ _ | SetLocalAccountLimit a _ _
  | AddAccountAttribute a _ _ | AddAccountIdentity _ _ a _ => Some a
  | GetSession | SessionConnection | ListRses => None
  end.

(** The call is about the account [acc]. *)
Definition about (acc : InternalAccount) (c : call) : bool :=
  match subject c with
  | Some a => same_account a acc
  | None => false
  end.

Definition calls (t : list event) : list call := map event_call t.

Definition count (f : call -> bool) (t : list event) : nat :=
  length (filter f (calls t)).

End Trace.

(** ** Collaborators to run the script against *)

(** An in-memory account and identity store: accounts by name, identity
    links, quotas, the catalogue of storage elements and the account
    names the store refuses to create.  It answers as section 6 of the
    specification describes the store: creating an existing account,
    linking an identity twice or linking to a missing account raise. *)
Module MemStore.

Import Rucio.

Record t : Type := {
  accounts : list string;
  identities : list (string * string);
  limits : list (string * string * Z);
  rses : list rse_obj;
  refused : list string
}.

Definition mem (x : string) (l : list string) : bool :=
  existsb (String.eqb x) l.

Definition linked (identity account : string) (l : list (string * string))
  : bool :=
  existsb (fun p => String.eqb (fst p) identity && String.eqb (snd p) account) l.

Definition do_add_account (acc : InternalAccount) (s : t)
  : result unit * t :=
  if mem (external acc) (refused s) then (Raise (Error "InvalidObject"), s)
  else if mem (external acc) (accounts s) then (Raise (Error "Duplicate"), s)
  else (Ok tt, {| accounts := external acc :: accounts s;
                  identities := identities s;
                  limits := limits s;
                  rses := rses s;
                  refused := refused s |}).

Definition do_set_limit (acc : InternalAccount) (rse : string) (bytes : Z)
  (s : t) : result unit * t :=
  (Ok tt, {| accounts := accounts s;
             identities := identities s;
             limits := (external acc, rse, bytes) :: limits s;
             rses := rses s;
             refused := refused s |}).

Definition do_add_identity (identity : string) (acc : InternalAccount)
  (s : t) : result unit * t :=
  if negb (mem (external acc) (accounts s))
  then (Raise (Error "AccountNotFound"), s)
  else if linked identity (external acc) (identities s)
  then (Raise (Error "Duplicate"), s)
  else (Ok tt, {| accounts := accounts s;
                  identities := (identity, external acc) :: identities s;
                  limits := limits s;
                  rses := rses s;
                  refused := refused s |}).

#[global] Instance core : Core t := {
  get_session := fun s => (Ok tt, s);
  session_connection := fun s => (Ok tt, s);
  account_exists := fun acc s => (Ok (mem (external acc) (accounts s)), s);
  add_account := fun acc _ _ s => do_add_account acc s;
  list_rses := fun s => (Ok (rses s), s);
  set_local_account_limit := do_set_limit;
  add_account_attribute := fun _ _ _ s => (Ok tt, s);
  add_account_identity := fun identity _ acc _ s =>
                            do_add_identity identity acc s
}.

Definition empty : t :=
  {| accounts := []; identities := []; limits := [];
     rses := [ {| rse_id := "rse-1" |}; {| rse_id := "rse-2" |} ];
     refused := [] |}.

(** The store that already holds the accounts [names]. *)
Definition holding (names : list string) : t :=
  {| accounts := names; identities := []; limits := [];
     rses := rses empty; refused := [] |}.

(** The empty store that refuses to create the accounts [names]. *)
Definition refusing (names : list string) : t :=
  {| accounts := []; identities := []; limits := [];
     rses := rses empty; refused := names |}.

End MemStore.

(** A directory that serves a fixed list of users as the SCIM listing
    contract says: the page holds the users from the 1-based
    [startIndex], at most [count] of them; [itemsPerPage] is the number
    of users in the page and [totalResults] the size of the directory. *)
Module Directory.

Import Scim Iam.

Definition page (dir : list user) (rq : request) : response :=
  let items :=
    firstn (Z.to_nat (Iam.count rq))
           (skipn (Z.to_nat (Iam.startIndex rq - 1)) dir) in
  {| Resources := items;
     itemsPerPage := Z.of_nat (length items);
     totalResults := Z.of_nat (length dir) |}.

#[global] Instance server : Server (list user) := {
  get_users := fun rq dir => (Ok (page dir rq), dir)
}.

End Directory.

(** A server whose total is inconsistent: every page is empty, while the
    reported total is one. *)
Module Inconsistent.

Import Scim Iam.

Definition empty_page : response :=
  {| Resources := []; itemsPerPage := 0; totalResults := 1 |}.

#[global] Instance server : Server unit := {
  get_users := fun _ s => (Ok empty_page, s)
}.

End Inconsistent.

(** ** Sample directory users *)

Module Sample.

Import Scim.

Definition self : IAM_RUCIO_SYNC :=
  {| iam_server := "https://iam.example.org";
     client_id := "client";
     client_secret := "secret";
     token_server := "https://iam.example.org" |}.

Definition with_cert (dn : string) : option indigo_user :=
  Some {| certificates := Some [ {| subjectDn := Some dn |} ] |}.

Definition mk (name mail sub : string) (ext : option indigo_user) : user :=
  {| userName := name; emails := [ {| value := mail |} ]; id := sub;
     IndigoUser := ext |}.

Definition alice : user :=
  mk "alice" "alice@example.org" "sub-a"
     (with_cert "CN=Alice,OU=Org,O=Example").

Definition bob : user := mk "bob" "bob@example.org" "sub-b" None.

Definition carol : user :=
  mk "carol" "carol@example.org" "sub-c" (with_cert "CN=Carol").

(** A user name of 26 characters. *)
Definition name26 : string := "abcdefghijklmnopqrstuvwxyz".

(** A user name of 25 characters. *)
Definition name25 : string := "abcdefghijklmnopqrstuvwxy".

Definition long_user : user :=
  mk name26 "long@example.org" "sub-l" (with_cert "CN=Long").

Definition edge_user : user :=
  mk name25 "edge@example.org" "sub-e" (with_cert "CN=Edge").

(** A user whose [emails] list is empty. *)
Definition no_mail : user :=
  {| userName := "dave"; emails := []; id := "sub-d";
     IndigoUser := with_cert "CN=Dave" |}.

End Sample.


(** ** What the passes are expected to ask of the store *)

Module Expect.

Import Scim Rucio.

(** The user name is within the bound of the store (25 characters). *)
Definition short_name (u : user) : bool :=
  negb (PyStr.len (userName u) >? 25)%Z.

(** [user['emails'][0]['value']], for a user with an email. *)
Definition first_email (u : user) : string :=
  match emails u with
  | e :: _ => value e
  | [] => ""
  end.

Definition account_of (u : user) : InternalAccount :=
  mkInternalAccount (userName u).

(** The one OIDC link of a user. *)
Definition oidc_link (self : IAM_RUCIO_SYNC) (u : user) : call :=
  AddAccountIdentity (format_sub_iss (id u) (iam_server self)) OIDC
    (account_of u) (first_email u).

(** The OIDC links of a directory: one per user with a short name. *)
Definition oidc_links (self : IAM_RUCIO_SYNC) (users : list user)
  : list call :=
  map (oidc_link self) (filter short_name users).

(** The X509 links of a user: one per certificate with a subject DN. *)
Definition x509_links_of (u : user) : list call :=
  match IndigoUser u with
  | Some indigo_user =>
      match certificates indigo_user with
      | Some certs =>
          flat_map
            (fun c =>
               match subjectDn c with
               | Some dn =>
                   [AddAccountIdentity (make_gridmap_compatible dn) X509
                      (account_of u) (first_email u)]
               | None => []
               end)
            certs
      | None => []
      end
  | None => []
  end.

Definition x509_links (users : list user) : list call :=
  flat_map x509_links_of users.

(** A call that can follow the creation of [acc] in the account pass:
    listing the storage elements, a quota grant to [acc], or the
    attribute attach to [acc]. *)
Definition follows_creation (acc : InternalAccount) (ev : event) : Prop :=
  match event_call ev with
  | ListRses => True
  | SetLocalAccountLimit a _ _ => a = acc
  | AddAccountAttribute a _ _ => a = acc
  | _ => False
  end.

Definition absent (acc : InternalAccount) : event :=
  Ev (AccountExists acc) (ReturnedBool false).

(** The calls the account pass can make for one user with account
    [acc]: none; the probe alone; the probe answered "absent" and a
    creation that raised; or the probe answered "absent", the creation,
    and what follows a creation. *)
Inductive account_block (acc : InternalAccount) : list event -> Prop :=
| block_none : account_block acc []
| block_probe (r : reply) : account_block acc [Ev (AccountExists acc) r]
| block_refused (email : string) (e : exn) :
    account_block acc
      [absent acc; Ev (AddAccount acc SERVICE email) (Raised e)]
| block_created (email : string) (tail : list event) :
    Forall (follows_creation acc) tail ->
    account_block acc
      (absent acc :: Ev (AddAccount acc SERVICE email) Returned :: tail).

(** Every account creation in [t] comes right after the store answered
    that this account does not exist. *)
Definition probed_before_creation (t : list event) : Prop :=
  forall pre post acc type email r,
    t = pre ++ Ev (AddAccount acc type email) r :: post ->
    exists pre', pre = pre' ++ [absent acc].

(** The event is a quota grant or an attribute attach to [acc]. *)
Definition provisions (acc : InternalAccount) (ev : event) : Prop :=
  match event_call ev with
  | SetLocalAccountLimit a _ _ => a = acc
  | AddAccountAttribute a _ _ => a = acc
  | _ => False
  end.

(** Every quota grant and attribute attach in [t] comes after the
    successful creation of its account, with nothing in between but
    what follows that creation. *)
Definition provisioned_after_creation (t : list event) : Prop :=
  forall pre post ev acc,
    t = pre ++ ev :: post ->
    provisions acc ev ->
    exists before email between,
      pre = before ++ Ev (AddAccount acc SERVICE email) Returned :: between
      /\ Forall (follows_creation acc) between.

(** If the store never answers in [t] that [acc] does not exist, then
    [t] has no creation of, no quota grant to and no attribute attach
    to [acc]. *)
Definition untouched_unless_absent (acc : InternalAccount)
  (t : list event) : Prop :=
  existsb (Trace.found_absent acc) t = false ->
  Trace.count (Trace.creates acc) t = 0%nat
  /\ Trace.count (Trace.grants acc) t = 0%nat
  /\ Trace.count (Trace.attaches acc) t = 0%nat.

(** No creation and no quota grant failed in [t]. *)
Definition clean (t : list event) : Prop :=
  Forall (fun ev => Trace.provisioning_failure ev = false) t.

(** A run in which a failed creation or quota grant, if there is one,
    is the last call made, and the run raises what that call raised. *)
Definition aborts_on_failure {St A : Type}
  (x : result A * St * list event) : Prop :=
  clean (trace x)
  \/ exists t0 c e,
       trace x = t0 ++ [Ev c (Raised e)] /\ clean t0 /\ outcome x = Raise e.

(** The call is not about an account whose name is longer than 25
    characters. *)
Definition within_bound (ev : event) : Prop :=
  match Trace.subject (event_call ev) with
  | Some acc => (PyStr.len (external acc) <= 25)%Z
  | None => True
  end.

End Expect.

(** ** Back from a gridmap key *)

(** The reading of a gridmap key as a DN: drop what precedes the first
    ['/'], split on ['/'], reverse, join with [','].  The script has no
    such function; it is here to state that the transform can be undone. *)
Definition from_gridmap (key : string) : string :=
  PyStr.join "," (rev (tl (PyStr.split "/" key))).

(** ** Whitespace *)

Module Whitespace.

(** [c.isspace()] for a character below 256: tab to carriage return, the
    four separators 28 to 31, the space, NEL and the no-break space. *)
Definition is_space (c : ascii) : bool :=
  let n := nat_of_ascii c in
  (Nat.leb 9 n && Nat.leb n 13) || (Nat.leb 28 n && Nat.leb n 32)
  || Nat.eqb n 133 || Nat.eqb n 160.

(** [s.rstrip()]. *)
Fixpoint rstrip (s : string) : string :=
  match s with
  | EmptyString => EmptyString
  | String c rest =>
      match rstrip rest with
      | EmptyString => if is_space c then EmptyString else String c EmptyString
      | kept => String c kept
      end
  end.

Fixpoint all_space (s : string) : bool :=
  match s with
  | EmptyString => true
  | String c rest => is_space c && all_space rest
  end.

(** The last character of [s] is a whitespace. *)
Fixpoint ends_with_space (s : string) : bool :=
  match s with
  | EmptyString => false
  | String c EmptyString => is_space c
  | String _ rest => ends_with_space rest
  end.

End Whitespace.

(** ** Configuration *)

Module Config.

(** What [configure] leaves in [self]: every setting is a string or
    [None]. *)
Record settings : Type := {
  iam_server : option string;
  client_id : option string;
  client_secret : option string;
  token_server : option string
}.

(** The section [IAM] of a configuration file once [ConfigParser] has
    read it: [has_option('IAM', name)] and [get('IAM', name)], which
    raises when the section or the option is missing or the value does
    not interpolate. *)
Record parsed : Type := {
  has_option : string -> bool;
  get : string -> result string
}.

(** What [configure] reads from outside: [config.read(path)], [None]
    standing for an empty list of files read; [os.getenv]; and
    [open(path, 'r').read()]. *)
Record environment : Type := {
  read : string -> result (option parsed);
  getenv : string -> option string;
  open_read : string -> result string
}.

Definition and_then {A B : Type} (r : result A) (k : A -> result B)
  : result B :=
  match r with
  | Ok a => k a
  | Raise e => Raise e
  end.

(** [os.getenv(name, default)]. *)
Definition os_getenv (env : environment) (name : string)
  (default : option string) : option string :=
  match getenv env name with
  | Some v => Some v
  | None => default
  end.

Definition unset : settings :=
  {| iam_server := None; client_id := None; client_secret := None;
     token_server := None |}.

(** Lines 38-51 of [configure]: the settings of a file that was read. *)
Definition from_file (env : environment) (config : parsed)
  : result settings :=
  and_then (get config "iam-server") (fun iam_server =>
  and_then (get config "client-id") (fun client_id =>
  and_then
    (if has_option config "client-secret"
     then get config "client-secret"
     else
       and_then (get config "client-secret-path") (fun client_secret_path =>
       and_then (open_read env client_secret_path) (fun text =>
       Ok (Whitespace.rstrip text))))
    (fun client_secret =>
  and_then
    (if has_option config "token-server"
     then get config "token-server"
     else Ok iam_server)
    (fun token_server =>
  Ok {| iam_server := Some iam_server;
        client_id := Some client_id;
        client_secret := Some client_secret;
        token_server := Some token_server |})))).

(** Lines 54-59 of [configure]: the environment variables overwrite the
    settings, and a token server still unset becomes the IAM server. *)
Definition overwrite (env : environment) (s : settings) : settings :=
  let iam_server := os_getenv env "IAM_SERVER" (iam_server s) in
  let client_id := os_getenv env "IAM_CLIENT_ID" (client_id s) in
  let client_secret := os_getenv env "IAM_CLIENT_SECRET" (client_secret s) in
  let token_server := os_getenv env "IAM_TOKEN_SERVER" (token_server s) in
  let token_server :=
    match token_server with
    | None => iam_server
    | Some _ => token_server
    end in
  {| iam_server := iam_server;
     client_id := client_id;
     client_secret := client_secret;
     token_server := token_server |}.

(** [IAM_RUCIO_SYNC.configure]. *)
Definition configure (config_path : string) (env : environment)
  : result settings :=
  and_then (read env config_path) (fun files_read =>
  and_then
    (match files_read with
     | Some config => from_file env config
     | None => Ok unset
     end)
    (fun s => Ok (overwrite env s))).

(** [str(x)] for a setting, as [%s] and [{}] format it. *)
Definition py_str (x : option string) : string :=
  match x with
  | Some s => s
  | None => "None"
  end.

End Config.

(** [self] as the fetch and the passes read it: they only format
    [self.iam_server] into a string. *)
Definition configured (s : Config.settings) : IAM_RUCIO_SYNC :=
  {| iam_server := Config.py_str (Config.iam_server s);
     client_id := Config.py_str (Config.client_id s);
     client_secret := Config.py_str (Config.client_secret s);
     token_server := Config.py_str (Config.token_server s) |}.

(** ** The token request *)

Module Token.

(** One [POST <token-server>/token] with its form fields; a field whose
    value is [None] is given as such. *)
Record request : Type := {
  url : string;
  data : list (string * option string)
}.

(** The token server, over a state [Tok]: the answer to a request,
    parsed by [json.loads], read as the value under ['access_token'] if the
    key is there. *)
Class Server (Tok : Type) : Type := {
  post : request -> Tok -> result (option string) * Tok
}.

End Token.

Section GetToken.

Local Open Scope py_scope.

Context {Tok : Type} `{Token.Server Tok}.

(** [IAM_RUCIO_SYNC.get_token]; [self.token_server + self.TOKEN_URL] is a
    [TypeError] when the token server is [None], and
    [BaseException("Authentication Failed")] is kept by its class name. *)
Definition get_token (self : Config.settings) : M Tok Token.request string :=
  let request_data :=
    [ ("client_id", Config.client_id self);
      ("client_secret", Config.client_secret self);
      ("grant_type", Some "client_credentials");
      ("username", Some "not_needed");
      ("password", Some "not_needed");
      ("scope", Some "scim:read") ] in
  match Config.token_server self with
  | None => raise (Error "TypeError")
  | Some token_server =>
      response <- invoke
        (Token.post {| Token.url := token_server ++ "/token";
                       Token.data := request_data |})
        (fun _ => {| Token.url := token_server ++ "/token";
                     Token.data := request_data |}) ;;
      match response with
      | None => raise (Error "BaseException")
      | Some access_token => ret access_token
      end
  end.

End GetToken.

(** ** The script *)

Module Script.

(** The three collaborators of a run. *)
Record world (Tok Srv St : Type) : Type := {
  token : Tok;
  iam : Srv;
  rucio : St
}.
Arguments token {Tok Srv St} w.
Arguments iam {Tok Srv St} w.
Arguments rucio {Tok Srv St} w.

(** What a run asks of them. *)
Inductive event : Type :=
| Post (rq : Token.request)
| Get (rq : Iam.request)
| Store (ev : Rucio.event).

Definition is_post (ev : event) : bool :=
  match ev with Post _ => true | _ => false end.
Definition is_get (ev : event) : bool :=
  match ev with Get _ => true | _ => false end.
Definition is_store (ev : event) : bool :=
  match ev with Store _ => true | _ => false end.

(** The event is an identity link sent to the store. *)
Definition is_link (ev : event) : bool :=
  match ev with
  | Store (Rucio.Ev c _) => Trace.links c
  | _ => false
  end.

(** The event is the opening of a database session. *)
Definition is_get_session (ev : event) : bool :=
  match ev with
  | Store (Rucio.Ev Rucio.GetSession _) => true
  | _ => false
  end.

Definition CONFIG_PATH : string := "./iam-sync.conf".

End Script.

Section Main.

Import Script.
Local Open Scope py_scope.

Context {Tok Srv St : Type}
  `{Token.Server Tok} `{Iam.Server Srv} `{Rucio.Core St}.

(** A computation on one collaborator, as a part of the run. *)
Definition on_token {A} (m : M Tok Token.request A)
  : M (world Tok Srv St) event A :=
  fun w =>
    let '(r, s, t) := m (token w) in
    (r, {| token := s; iam := iam w; rucio := rucio w |}, map Post t).

Definition on_iam {A} (m : M Srv Iam.request A)
  : M (world Tok Srv St) event A :=
  fun w =>
    let '(r, s, t) := m (iam w) in
    (r, {| token := token w; iam := s; rucio := rucio w |}, map Get t).

Definition on_rucio {A} (m : M St Rucio.event A)
  : M (world Tok Srv St) event A :=
  fun w =>
    let '(r, s, t) := m (rucio w) in
    (r, {| token := token w; iam := iam w; rucio := s |}, map Store t).

(** What the script does after [configure] (lines 221-237), with the
    fetch run for at most [fuel] iterations: [None] when the fetch is
    still running. *)
Definition run_syncer (fuel : nat) (settings : Config.settings)
  : M (world Tok Srv St) event (option unit) :=
  let syncer := configured settings in
  access_token <- on_token (get_token settings) ;;
  fetched <- on_iam (get_list_of_users fuel syncer access_token) ;;
  match fetched with
  | None => ret None
  | Some iam_users =>
      on_rucio (sync_accounts syncer iam_users) ;;;
      on_rucio (sync_oidc syncer iam_users) ;;;
      on_rucio (sync_x509 syncer iam_users) ;;;
      ret (Some tt)
  end.

(** The [__main__] block. *)
Definition main (fuel : nat) (env : Config.environment)
  : M (world Tok Srv St) event (option unit) :=
  match Config.configure CONFIG_PATH env with
  | Raise e => raise e
  | Ok settings => run_syncer fuel settings
  end.

End Main.

(** ** More directory servers *)

(** The [k]-th page request of a fetch, counted from 0. *)
Definition page_request (self : IAM_RUCIO_SYNC) (access_token : string)
  (k : nat) : Iam.request :=
  {| Iam.url := iam_server self ++ "/scim/Users";
     Iam.bearer := access_token;
     Iam.startIndex := 1 + 100 * Z.of_nat k;
     Iam.count := 100 |}.

Section Progress.

Import Scim Iam.
Local Open Scope Z_scope.

Context {Srv : Type} `{Server Srv}.

(** Every page the server gives reports at least one item, and a total
    of at most [N]. *)
Definition progressing (N : Z) : Prop :=
  forall (rq : request) (s : Srv),
    match fst (get_users rq s) with
    | Ok resp => 1 <= itemsPerPage resp /\ totalResults resp <= N
    | Raise _ => True
    end.

End Progress.

(** A server without a state of its own: the state is the function that
    answers. *)
Module Stateless.

Import Scim Iam.

#[global] Instance server : Server (request -> response) := {
  get_users := fun rq answer => (Ok (answer rq), answer)
}.

End Stateless.

(** A server that gives one user per page, whatever is asked, out of a
    total of three. *)
Module Trickle.

Import Scim Iam.

Definition one_page : response :=
  {| Resources := [Sample.alice]; itemsPerPage := 1; totalResults := 3 |}.

Inductive state : Type := Serving.

#[global] Instance server : Server state := {
  get_users := fun _ s => (Ok one_page, s)
}.

End Trickle.

(** ** Stores that do not fail *)

Section Dependable.

Import Rucio.

Context {St : Type} `{Core St}.

(** The operation returns in every state. *)
Definition never_raises {A : Type} (op : St -> result A * St) : Prop :=
  forall s, exists a s', op s = (Ok a, s').

(** A store in which everything the account pass calls returns, except
    perhaps [add_account_attribute]. *)
Definition dependable : Prop :=
  never_raises get_session
  /\ never_raises session_connection
  /\ (forall acc, never_raises (account_exists acc))
  /\ (forall acc type email, never_raises (add_account acc type email))
  /\ never_raises list_rses
  /\ (forall acc rse bytes,
        never_raises (set_local_account_limit acc rse bytes)).

End Dependable.

(** A store that accepts every account and every quota, and rejects
    every attribute. *)
Module Touchy.

Import Rucio.

#[global] Instance core : Core (list string) := {
  get_session := fun s => (Ok tt, s);
  session_connection := fun s => (Ok tt, s);
  account_exists := fun acc s => (Ok (MemStore.mem (external acc) s), s);
  add_account := fun acc _ _ s => (Ok tt, external acc :: s);
  list_rses := fun s => (Ok [ {| rse_id := "rse-1" |} ], s);
  set_local_account_limit := fun _ _ _ s => (Ok tt, s);
  add_account_attribute := fun _ _ _ s => (Raise (Error "Duplicate"), s);
  add_account_identity := fun _ _ _ _ s => (Ok tt, s)
}.

End Touchy.

(** What a call of the account pass over [users] can be: about a user of
    the list with a short name; a creation of a [SERVICE] account with
    the first email of that user; a quota of 10^12; the attribute
    [admin] set to [True]; never an identity link. *)
Definition account_call_for (users : list Scim.user) (ev : Rucio.event)
  : Prop :=
  match Rucio.event_call ev with
  | Rucio.GetSession | Rucio.SessionConnection | Rucio.ListRses => True
  | Rucio.AccountExists acc =>
      exists u, In u users /\ Expect.short_name u = true
                /\ acc = Expect.account_of u
  | Rucio.AddAccount acc type email =>
      exists u, In u users /\ Expect.short_name u = true
                /\ acc = Expect.account_of u
                /\ type = Rucio.SERVICE
                /\ Scim.emails u <> [] /\ email = Expect.first_email u
  | Rucio.SetLocalAccountLimit acc _ bytes =>
      (exists u, In u users /\ Expect.short_name u = true
                 /\ acc = Expect.account_of u)
      /\ bytes = 1000000000000%Z
  | Rucio.AddAccountAttribute acc key val =>
      (exists u, In u users /\ Expect.short_name u = true
                 /\ acc = Expect.account_of u)
      /\ key = "admin" /\ val = "True"
  | Rucio.AddAccountIdentity _ _ _ _ => False
  end.

(** ** Sample environments and a token server *)

Module SampleEnv.

Import Config.

(** A file with [iam-server], [client-id] and [client-secret-path], and
    neither [client-secret] nor [token-server]. *)
Definition file : parsed :=
  {| has_option := fun name =>
       String.eqb name "iam-server" || String.eqb name "client-id"
       || String.eqb name "client-secret-path";
     get := fun name =>
       if String.eqb name "iam-server" then Ok "https://file.example.org"
       else if String.eqb name "client-id" then Ok "file-client"
       else if String.eqb name "client-secret-path" then Ok "/etc/iam/secret"
       else Raise (Error "NoOptionError") |}.

(** A file that lacks [iam-server]. *)
Definition partial_file : parsed :=
  {| has_option := fun name => String.eqb name "client-id";
     get := fun name =>
       if String.eqb name "client-id" then Ok "file-client"
       else Raise (Error "NoOptionError") |}.

(** The secret file ends with a newline. *)
Definition secret_text : string :=
  "s3cret" ++ String (ascii_of_nat 10) EmptyString.

Definition files (path : string) : result string :=
  if String.eqb path "/etc/iam/secret" then Ok secret_text
  else Raise (Error "FileNotFoundError").

(** The file is there and [IAM_SERVER] is set. *)
Definition with_file : environment :=
  {| read := fun _ => Ok (Some file);
     getenv := fun name =>
       if String.eqb name "IAM_SERVER" then Some "https://env.example.org"
       else None;
     open_read := files |}.

(** The file lacks [iam-server] and [IAM_SERVER] is set. *)
Definition with_partial_file : environment :=
  {| read := fun _ => Ok (Some partial_file);
     getenv := fun name =>
       if String.eqb name "IAM_SERVER" then Some "https://env.example.org"
       else None;
     open_read := files |}.

(** No file and no variable. *)
Definition bare : environment :=
  {| read := fun _ => Ok None;
     getenv := fun _ => None;
     open_read := files |}.

(** No file; the four variables are set. *)
Definition from_variables : environment :=
  {| read := fun _ => Ok None;
     getenv := fun name =>
       if String.eqb name "IAM_SERVER" then Some "https://iam.example.org"
       else if String.eqb name "IAM_CLIENT_ID" then Some "client"
       else if String.eqb name "IAM_CLIENT_SECRET" then Some "secret"
       else None;
     open_read := files |}.

End SampleEnv.

(** A token server that always gives the same answer: the state is the
    value under ['access_token'], if any. *)
Module Desk.

#[global] Instance server : Token.Server (option string) := {
  Token.post := fun _ answer => (Ok answer, answer)
}.

Definition world (answer : option string) (dir : list Scim.user)
  (store : MemStore.t) : Script.world (option string) (list Scim.user) MemStore.t :=
  {| Script.token := answer; Script.iam := dir; Script.rucio := store |}.

End Desk.

(** A directory server that cannot be reached. *)
Module Unreachable.

Inductive state : Type := Down.

#[global] Instance server : Iam.Server state := {
  Iam.get_users := fun _ s => (Raise (Error "ConnectionError"), s)
}.

End Unreachable.

(** ** What the server answered during a fetch *)

Section Observed.

Import Scim Iam.
Local Open Scope Z_scope.

Context {Srv : Type} `{Server Srv}.






End Observed.

(** A server that gives one user in the page at start index 1 and empty
    pages after that, with a total of three all along. *)
Module Stalling.

Import Scim Iam.
Local Open Scope Z_scope.

Definition answer (rq : request) : response :=
  if Iam.startIndex rq =? 1
  then {| Resources := [Sample.alice]; itemsPerPage := 1; totalResults := 3 |}
  else {| Resources := []; itemsPerPage := 0; totalResults := 3 |}.


End Stalling.

(** * Proofs *)

(** ** Splitting and joining *)

Section SplitFacts.

Variable sep : ascii.

Lemma split_not_nil (s : string) : PyStr.split sep s <> [].
Proof.
  destruct s as [|c rest]; simpl; [discriminate|].
  destruct (Ascii.eqb c sep); [discriminate|].
  destruct (PyStr.split sep rest); discriminate.
Qed.

Lemma split_pieces_free (s : string) :
  Forall (fun piece => PyStr.contains sep piece = false) (PyStr.split sep s).
Proof.
  induction s as [|c rest IH]; simpl.
  - repeat constructor.
  - destruct (Ascii.eqb c sep) eqn:E.
    + constructor; [reflexivity | exact IH].
    + destruct (PyStr.split sep rest) as [|piece pieces].
      * repeat constructor. simpl. now rewrite E.
      * inversion IH; subst. constructor; [|assumption].
        simpl. now rewrite E.
Qed.

Lemma concat_cons_char (c : ascii) (piece : string) (pieces : list string) :
  String.concat (String sep "") (String c piece :: pieces)
  = String c (String.concat (String sep "") (piece :: pieces)).
Proof. destruct pieces; reflexivity. Qed.

Lemma concat_cons_empty (pieces : list string) :
  pieces <> [] ->
  String.concat (String sep "") ("" :: pieces)
  = String sep (String.concat (String sep "") pieces).
Proof. destruct pieces; [congruence | reflexivity]. Qed.

Lemma join_split (s : string) :
  String.concat (String sep "") (PyStr.split sep s) = s.
Proof.
  induction s as [|c rest IH]; simpl; [reflexivity|].
  destruct (Ascii.eqb c sep) eqn:E.
  - apply Ascii.eqb_eq in E. subst c.
    rewrite concat_cons_empty by apply split_not_nil. now rewrite IH.
  - pose proof (split_not_nil rest) as NE.
    destruct (PyStr.split sep rest) as [|piece pieces]; [congruence|].
    rewrite concat_cons_char. now rewrite IH.
Qed.

Lemma split_at_sep (s : string) :
  PyStr.split sep (String sep s) = "" :: PyStr.split sep s.
Proof. simpl. now rewrite Ascii.eqb_refl. Qed.

Lemma split_at_other (c : ascii) (s piece : string) (pieces : list string) :
  Ascii.eqb c sep = false ->
  PyStr.split sep s = piece :: pieces ->
  PyStr.split sep (String c s) = String c piece :: pieces.
Proof. intros E H. simpl. now rewrite E, H. Qed.

(** Splitting undoes joining of separator-free pieces: the component
    sequence of a string is unique. *)
Lemma split_join (pieces : list string) :
  pieces <> [] ->
  Forall (fun piece => PyStr.contains sep piece = false) pieces ->
  PyStr.split sep (String.concat (String sep "") pieces) = pieces.
Proof.
  induction pieces as [|piece pieces IH]; [congruence|].
  intros _ HF. inversion HF as [|? ? Hp Hps]; subst. clear HF.
  induction piece as [|c piece IHp].
  - destruct pieces as [|q qs]; [reflexivity|].
    rewrite concat_cons_empty by discriminate.
    rewrite split_at_sep, IH; [reflexivity | discriminate | assumption].
  - simpl in Hp. apply orb_false_elim in Hp as [Hc Hp].
    rewrite concat_cons_char.
    apply split_at_other; [assumption | now apply IHp].
Qed.

End SplitFacts.

(** ** The DN transform *)

(** C2. [make_gridmap_compatible] is the specification's [toCanonicalKey]:
    for every way of reading the input as comma-separated components the
    result is those components reversed, joined with ['/'] and prefixed
    with ['/']; every input has such a reading (the function is total);
    and the two examples of the specification hold. *)
Theorem make_gridmap_compatible_is_toCanonicalKey :
  (forall s components,
      split_on_comma s components ->
      make_gridmap_compatible s = toCanonicalKey_of components)
  /\ (forall s, split_on_comma s (PyStr.split "," s))
  /\ make_gridmap_compatible "CN=Alice,OU=Org,O=Example"
     = "/O=Example/OU=Org/CN=Alice"
  /\ make_gridmap_compatible "CN=Bob" = "/CN=Bob".
Proof.
  split; [|split; [|split; reflexivity]].
  - intros s components (NE & Free & Join). subst s.
    unfold make_gridmap_compatible, toCanonicalKey_of, PyStr.join.
    now rewrite (split_join "," components NE Free).
  - intros s. repeat split.
    + apply split_not_nil.
    + apply split_pieces_free.
    + apply join_split.
Qed.

Lemma make_gridmap_compatible_is_toCanonicalKey_witness :
  split_on_comma "CN=Alice,OU=Org,O=Example" ["CN=Alice"; "OU=Org"; "O=Example"]
  /\ make_gridmap_compatible "CN=Alice,OU=Org,O=Example"
     = toCanonicalKey_of ["CN=Alice"; "OU=Org"; "O=Example"].
Proof.
  assert (W : split_on_comma "CN=Alice,OU=Org,O=Example"
                ["CN=Alice"; "OU=Org"; "O=Example"]).
  { repeat split; [discriminate | repeat constructor]. }
  split; [exact W|].
  exact (proj1 make_gridmap_compatible_is_toCanonicalKey _ _ W).
Defined.

(** C10. The DN transform is not injective: the distinct inputs ["A,B"]
    and ["B/A"] both give ["/B/A"]. *)
Theorem make_gridmap_compatible_not_injective :
  "A,B" <> "B/A"
  /\ make_gridmap_compatible "A,B" = "/B/A"
  /\ make_gridmap_compatible "B/A" = "/B/A"
  /\ ~ (forall s1 s2,
          make_gridmap_compatible s1 = make_gridmap_compatible s2 -> s1 = s2).
Proof.
  repeat split; try reflexivity; try discriminate.
  intros Inj. specialize (Inj "A,B" "B/A" eq_refl). discriminate.
Qed.

(** ** The paginated fetch *)

Section CeilDiv.

Local Open Scope Z_scope.

Lemma ceil_div_step (n P : Z) :
  0 < P -> ceil_div n P = 1 + ceil_div (n - P) P.
Proof.
  intros HP. unfold ceil_div.
  replace (n + P - 1) with ((n - P + P - 1) + 1 * P) by lia.
  rewrite Z.div_add by lia. lia.
Qed.

Lemma ceil_div_pos (n P : Z) : 0 < P -> 1 <= n -> 1 <= ceil_div n P.
Proof.
  intros HP Hn. unfold ceil_div. apply Z.div_le_lower_bound; lia.
Qed.

Lemma ceil_div_small (n P : Z) : 0 < P -> n <= P -> ceil_div n P <= 1.
Proof.
  intros HP Hn. unfold ceil_div.
  enough (H : (n + P - 1) / P < 2) by lia.
  apply Z.div_lt_upper_bound; lia.
Qed.

Lemma ceil_div_zero (P : Z) : 0 < P -> ceil_div 0 P = 0.
Proof. intros HP. unfold ceil_div. apply Z.div_small. lia. Qed.

End CeilDiv.

Section FetchFromDirectory.

Import Scim Iam.
Local Open Scope Z_scope.

Variable self : IAM_RUCIO_SYNC.
Variable access_token : string.
Variable P : Z.
Hypothesis page_size_positive : 0 < P.

Lemma page_after (done rest : list user) (u : string) :
  Directory.page (done ++ rest)
    {| url := u; bearer := access_token;
       startIndex := 1 + Z.of_nat (length done); count := P |}
  = {| Resources := firstn (Z.to_nat P) rest;
       itemsPerPage := Z.of_nat (length (firstn (Z.to_nat P) rest));
       totalResults := Z.of_nat (length (done ++ rest)) |}.
Proof.
  unfold Directory.page. cbn [Iam.count Iam.startIndex].
  replace (Z.to_nat (1 + Z.of_nat (length done) - 1)) with (length done)
    by lia.
  rewrite skipn_app, skipn_all, Nat.sub_diag. reflexivity.
Qed.

(** The loop, entered after the users [done] have been received, with
    the users [rest] still to come. *)
Lemma loop_on_directory (fuel : nat) :
  forall done rest : list user,
    (length rest < fuel)%nat ->
    rest <> [] \/ done = [] ->
    let run :=
      get_list_of_users_loop self access_token P fuel
        (1 + Z.of_nat (length done)) (Z.of_nat (length done)) done
        (done ++ rest) in
    outcome run = Ok (Some (done ++ rest))
    /\ final run = done ++ rest
    /\ Z.of_nat (length (trace run))
       = Z.max 1 (ceil_div (Z.of_nat (length rest)) P).
Proof.
  induction fuel as [|fuel IH]; intros done rest Hfuel Hrest; [lia|].
  cbn zeta. cbn [get_list_of_users_loop].
  unfold bind, requests_get, invoke. cbn [get_users Directory.server].
  rewrite page_after. cbn [Resources itemsPerPage totalResults].
  rewrite length_firstn, length_app.
  destruct (Z.ltb_spec
              (Z.of_nat (length done)
               + Z.of_nat (Nat.min (Z.to_nat P) (length rest)))
              (Z.of_nat (length done + length rest))) as [More|Last].
  - (* a full page, and more to come *)
    assert (HP : (Z.to_nat P < length rest)%nat) by lia.
    pose proof (firstn_skipn (Z.to_nat P) rest) as Split.
    assert (Hlen : length (firstn (Z.to_nat P) rest) = Z.to_nat P)
      by (rewrite length_firstn; lia).
    specialize (IH (done ++ firstn (Z.to_nat P) rest)
                   (skipn (Z.to_nat P) rest)).
    rewrite length_app, Hlen, length_skipn in IH.
    rewrite <- app_assoc, Split in IH.
    replace (1 + Z.of_nat (length done + Z.to_nat P))
      with (1 + Z.of_nat (length done) + P) in IH by lia.
    replace (Z.of_nat (length done + Z.to_nat P))
      with (Z.of_nat (length done)
            + Z.of_nat (Nat.min (Z.to_nat P) (length rest))) in IH by lia.
    cbn zeta in IH.
    destruct IH as (Hout & Hfin & Hreq).
    { lia. }
    { left. intros E. apply (f_equal (@length _)) in E.
      rewrite length_skipn in E. simpl in E. lia. }
    destruct (get_list_of_users_loop _ _ _ _ _ _ _ _)
      as [[r s] t] eqn:Run.
    unfold outcome, final, trace in *. cbn [fst snd] in *.
    repeat split; try assumption.
    cbn [length app]. rewrite Nat2Z.inj_succ, Hreq.
    rewrite (ceil_div_step (Z.of_nat (length rest)) P) by assumption.
    replace (Z.of_nat (length rest - Z.to_nat P))
      with (Z.of_nat (length rest) - P) by lia.
    pose proof (ceil_div_pos (Z.of_nat (length rest) - P) P).
    lia.
  - (* the last page *)
    assert (HP : (length rest <= Z.to_nat P)%nat) by lia.
    rewrite firstn_all2 by assumption.
    unfold outcome, final, trace, ret. cbn [fst snd app length].
    repeat split.
    pose proof (ceil_div_small (Z.of_nat (length rest)) P).
    lia.
Qed.

End FetchFromDirectory.

(** C3, as the code has it.  Against a directory of T users served in
    pages of P > 0, the fetch loop returns once it has enough fuel (more
    iterations than there are users), returns exactly the T users of the
    directory in order, leaves the directory unchanged, and has made
    max(1, ceil(T/P)) requests: ceil(T/P) when T >= 1, and one request
    when the directory is empty.  [get_list_of_users] is the loop with
    P = 100. *)
Theorem get_list_of_users_pages :
  forall (self : IAM_RUCIO_SYNC) (access_token : string)
         (dir : list Scim.user) (fuel : nat),
    (length dir < fuel)%nat ->
    (forall P : Z,
        (0 < P)%Z ->
        let run := get_list_of_users_loop self access_token P fuel 1 0 [] dir in
        outcome run = Ok (Some dir)
        /\ final run = dir
        /\ Z.of_nat (length (trace run))
           = Z.max 1 (ceil_div (Z.of_nat (length dir)) P)
        /\ (dir <> [] ->
            Z.of_nat (length (trace run))
            = ceil_div (Z.of_nat (length dir)) P))
    /\ outcome (get_list_of_users fuel self access_token dir) = Ok (Some dir)
    /\ Z.of_nat (length (trace (get_list_of_users fuel self access_token dir)))
       = Z.max 1 (ceil_div (Z.of_nat (length dir)) 100).
Proof.
  intros self access_token dir fuel Hfuel.
  assert (Loop : forall P : Z,
             (0 < P)%Z ->
             let run :=
               get_list_of_users_loop self access_token P fuel 1 0 [] dir in
             outcome run = Ok (Some dir)
             /\ final run = dir
             /\ Z.of_nat (length (trace run))
                = Z.max 1 (ceil_div (Z.of_nat (length dir)) P)).
  { intros P HP.
    exact (loop_on_directory self access_token P HP fuel [] dir Hfuel
             (or_intror eq_refl)). }
  split.
  - intros P HP. destruct (Loop P HP) as (Hout & Hfin & Hreq).
    cbn zeta. repeat split; try assumption.
    intros NE. rewrite Hreq.
    assert (1 <= Z.of_nat (length dir))%Z
      by (destruct dir; [congruence | simpl length; lia]).
    pose proof (ceil_div_pos (Z.of_nat (length dir)) P HP). lia.
  - destruct (Loop 100%Z eq_refl) as (Hout & _ & Hreq).
    split; assumption.
Qed.

Lemma get_list_of_users_pages_witness :
  (length [Sample.alice; Sample.bob; Sample.carol] < 4)%nat
  /\ outcome (get_list_of_users_loop Sample.self "token" 2 4 1 0 []
                [Sample.alice; Sample.bob; Sample.carol])
     = Ok (Some [Sample.alice; Sample.bob; Sample.carol])
  /\ Z.of_nat (length (trace (get_list_of_users_loop Sample.self "token" 2 4
                                1 0 [] [Sample.alice; Sample.bob; Sample.carol])))
     = 2%Z.
Proof.
  assert (Hfuel : (length [Sample.alice; Sample.bob; Sample.carol] < 4)%nat)
    by (simpl; lia).
  split; [exact Hfuel|].
  destruct (get_list_of_users_pages Sample.self "token"
              [Sample.alice; Sample.bob; Sample.carol] 4 Hfuel)
    as [Loop _].
  destruct (Loop 2%Z eq_refl) as (Hout & _ & Hreq & _).
  split; [exact Hout | exact Hreq].
Defined.

(** C3 as stated fails on the empty directory: T = 0 and ceil(0/100) = 0,
    yet the loop requests one page before it can see the total. *)
Lemma get_list_of_users_empty_directory :
  outcome (get_list_of_users 1 Sample.self "token" (@nil Scim.user))
  = Ok (Some [])
  /\ Z.of_nat
       (length (trace (get_list_of_users 1 Sample.self "token" (@nil Scim.user))))
     <> ceil_div (Z.of_nat (length (@nil Scim.user))) 100
  /\ length (trace (get_list_of_users 1 Sample.self "token" (@nil Scim.user)))
     = 1%nat
  /\ ceil_div (Z.of_nat (length (@nil Scim.user))) 100 = 0%Z.
Proof. repeat split. discriminate. Qed.

Section FetchFromInconsistentServer.

Import Scim Iam.
Local Open Scope Z_scope.

Context {Srv : Type} `{Server Srv}.


End FetchFromInconsistentServer.

Section FetchObserved.

Import Scim Iam.
Local Open Scope Z_scope.

Context {Srv : Type} `{Server Srv}.

Variable self : IAM_RUCIO_SYNC.
Variable access_token : string.





End FetchObserved.






(** ** Loops in the effect monad *)

Section Loops.

Context {St Ev A : Type}.
Implicit Types (body : A -> M St Ev unit) (s : St).

(** A loop over [pre ++ post] is the loop over [pre], then the loop
    over [post]. *)
Lemma for_each_app body (pre post : list A) s :
  for_each (pre ++ post) body s
  = bind (for_each pre body) (fun _ => for_each post body) s.
Proof.
  revert s. induction pre as [|x pre IH]; intros s.
  - cbn [app for_each]. unfold bind, ret.
    now destruct (for_each post body s) as [[r s1] t1].
  - cbn [app for_each]. unfold bind.
    destruct (body x s) as [[[[]|e] s1] t1]; [|reflexivity].
    rewrite IH. unfold bind.
    destruct (for_each pre body s1) as [[[[]|e] s2] t2]; [|reflexivity].
    destruct (for_each post body s2) as [[r s3] t3].
    now rewrite app_assoc.
Qed.

(** A loop whose body raises at [u] without calling anything ends
    there: what follows [u] is never run. *)
Lemma for_each_raises_at body (pre post : list A) (u : A) (e : exn)
  s s1 (t : list Ev) :
  for_each pre body s = (Ok tt, s1, t) ->
  body u s1 = (Raise e, s1, []) ->
  for_each (pre ++ u :: post) body s = (Raise e, s1, t).
Proof.
  intros Hpre Hu. rewrite for_each_app. unfold bind. rewrite Hpre.
  cbn [for_each]. unfold bind. rewrite Hu. now rewrite app_nil_r.
Qed.

(** The same after a prologue [m]. *)
Lemma prologue_for_each_raises_at (m : M St Ev unit) body
  (pre post : list A) (u : A) (e : exn) s s1 (t : list Ev) :
  (forall s0, body u s0 = (Raise e, s0, [])) ->
  bind m (fun _ => for_each pre body) s = (Ok tt, s1, t) ->
  bind m (fun _ => for_each (pre ++ u :: post) body) s = (Raise e, s1, t).
Proof.
  intros Hu. unfold bind.
  destruct (m s) as [[[[]|e0] s0] t0]; [|discriminate].
  destruct (for_each pre body s0) as [[r s2] t2] eqn:Hpre.
  intros Eq. injection Eq as Er Es Et. subst r s2 t.
  now rewrite (for_each_raises_at body pre post u e s0 s1 t2 Hpre (Hu s1)).
Qed.

End Loops.

(** ** Users without an email *)

Section NoEmail.

Import Scim Rucio.

Context {St : Type} `{Core St}.
Variable self : IAM_RUCIO_SYNC.
Variable u : user.
Hypothesis no_email : emails u = [].

Lemma sync_accounts_body_no_email (s : St) :
  sync_accounts_body u s = (Raise IndexError, s, []).
Proof. unfold sync_accounts_body, bind, index. now rewrite no_email. Qed.

Lemma sync_oidc_body_no_email (s : St) :
  sync_oidc_body self u s = (Raise IndexError, s, []).
Proof. unfold sync_oidc_body, bind, index. now rewrite no_email. Qed.

Lemma sync_x509_body_no_email (s : St) :
  sync_x509_body u s = (Raise IndexError, s, []).
Proof. unfold sync_x509_body, bind, index. now rewrite no_email. Qed.

End NoEmail.

(** C9. In each of the three passes [user['emails'][0]] is read first and
    outside every handler: if the pass gets through the users [pre] and
    then meets a user [u] whose email list is empty, it raises
    [IndexError] at [u], whatever the user name of [u], having made
    exactly the calls it made for [pre]; the users [post] after [u] are
    not processed. *)
Theorem passes_raise_on_empty_emails :
  forall (St : Type) (core : Rucio.Core St) (self : IAM_RUCIO_SYNC)
         (pre post : list Scim.user) (u : Scim.user)
         (s s' : St) (t : list Rucio.event),
    Scim.emails u = [] ->
    (sync_accounts self pre s = (Ok tt, s', t) ->
     sync_accounts self (pre ++ u :: post) s = (Raise IndexError, s', t))
    /\ (sync_oidc self pre s = (Ok tt, s', t) ->
        sync_oidc self (pre ++ u :: post) s = (Raise IndexError, s', t))
    /\ (sync_x509 self pre s = (Ok tt, s', t) ->
        sync_x509 self (pre ++ u :: post) s = (Raise IndexError, s', t)).
Proof.
  intros St core self pre post u s s' t no_email.
  unfold sync_accounts, sync_oidc, sync_x509.
  repeat split; apply prologue_for_each_raises_at; intros s0.
  - now apply sync_accounts_body_no_email.
  - now apply sync_oidc_body_no_email.
  - now apply sync_x509_body_no_email.
Qed.

Lemma passes_raise_on_empty_emails_witness :
  Scim.emails Sample.no_mail = []
  /\ outcome (sync_accounts Sample.self [Sample.alice] MemStore.empty) = Ok tt
  /\ outcome (sync_accounts Sample.self
                [Sample.alice; Sample.no_mail; Sample.carol] MemStore.empty)
     = Raise IndexError
  /\ outcome (sync_oidc Sample.self [Sample.alice] MemStore.empty) = Ok tt
  /\ outcome (sync_oidc Sample.self
                [Sample.alice; Sample.no_mail; Sample.carol] MemStore.empty)
     = Raise IndexError
  /\ outcome (sync_x509 Sample.self [Sample.alice] MemStore.empty) = Ok tt
  /\ outcome (sync_x509 Sample.self
                [Sample.alice; Sample.no_mail; Sample.carol] MemStore.empty)
     = Raise IndexError.
Proof.
  split; [reflexivity|].
  split; [reflexivity|]. split.
  { apply (f_equal outcome
             (proj1 (passes_raise_on_empty_emails MemStore.t MemStore.core
                       Sample.self [Sample.alice] [Sample.carol] Sample.no_mail
                       MemStore.empty _ _ eq_refl) eq_refl)). }
  split; [reflexivity|]. split.
  { apply (f_equal outcome
             (proj1 (proj2 (passes_raise_on_empty_emails MemStore.t
                              MemStore.core Sample.self [Sample.alice]
                              [Sample.carol] Sample.no_mail
                              MemStore.empty _ _ eq_refl)) eq_refl)). }
  split; [reflexivity|].
  apply (f_equal outcome
           (proj2 (proj2 (passes_raise_on_empty_emails MemStore.t
                            MemStore.core Sample.self [Sample.alice]
                            [Sample.carol] Sample.no_mail
                            MemStore.empty _ _ eq_refl)) eq_refl)).
Defined.

(** ** What a computation emits *)

Section Emits.

Context {St Ev : Type}.

Variable P : list Ev -> Prop.
Hypothesis P_nil : P [].
Hypothesis P_app : forall t1 t2, P t1 -> P t2 -> P (t1 ++ t2).

Lemma emits_ret {A} (a : A) : emits P (@ret St Ev A a).
Proof. intros s. exact P_nil. Qed.

Lemma emits_raise {A} (e : exn) : emits P (@raise St Ev A e).
Proof. intros s. exact P_nil. Qed.

Lemma emits_index {A} (l : list A) (i : nat) :
  emits P (@index St Ev A l i).
Proof.
  unfold index. destruct (nth_error l i); [apply emits_ret | apply emits_raise].
Qed.

Lemma emits_bind {A B} (m : M St Ev A) (k : A -> M St Ev B) :
  emits P m -> (forall a, emits P (k a)) -> emits P (bind m k).
Proof.
  intros Hm Hk s. specialize (Hm s). unfold bind, trace in *.
  destruct (m s) as [[[a|e] s1] t1]; cbn [snd] in *; [|assumption].
  specialize (Hk a s1). unfold trace in Hk.
  destruct (k a s1) as [[r s2] t2]. cbn [snd] in *. now apply P_app.
Qed.

Lemma emits_try_except {A} (m : M St Ev A) (handler : exn -> M St Ev A) :
  emits P m -> (forall e, emits P (handler e)) ->
  emits P (try_except m handler).
Proof.
  intros Hm Hh s. specialize (Hm s). unfold try_except, trace in *.
  destruct (m s) as [[[a|e] s1] t1]; cbn [snd] in *; [assumption|].
  specialize (Hh e s1). unfold trace in Hh.
  destruct (handler e s1) as [[r s2] t2]. cbn [snd] in *. now apply P_app.
Qed.

Lemma emits_for_each {A} (l : list A) (body : A -> M St Ev unit) :
  (forall x, emits P (body x)) -> emits P (for_each l body).
Proof.
  intros Hb. induction l as [|x l IH]; cbn [for_each].
  - apply emits_ret.
  - apply emits_bind; [apply Hb | intros _; exact IH].
Qed.

Lemma emits_invoke {A} (op : St -> result A * St) (log : result A -> Ev) :
  (forall r, P [log r]) -> emits P (invoke op log).
Proof.
  intros Hlog s. unfold invoke, trace. destruct (op s) as [r s1].
  cbn [snd]. apply Hlog.
Qed.

End Emits.

Lemma Forall_monoid {Ev : Type} (Q : Ev -> Prop) :
  Forall Q [] /\ (forall t1 t2, Forall Q t1 -> Forall Q t2 -> Forall Q (t1 ++ t2)).
Proof. split; [constructor | intros t1 t2 H1 H2; apply Forall_app; now split]. Qed.

(** Where an event sits in a concatenation. *)
Lemma app_eq_app_cons {Ev : Type} (t1 t2 pre post : list Ev) (ev : Ev) :
  t1 ++ t2 = pre ++ ev :: post ->
  (exists l, t1 = pre ++ ev :: l /\ post = l ++ t2)
  \/ (exists l, pre = t1 ++ l /\ t2 = l ++ ev :: post).
Proof.
  intros Eq. apply app_eq_app in Eq as [l [[E1 E2]|[E1 E2]]].
  - destruct l as [|x l].
    + right. exists []. rewrite app_nil_r in E1. simpl in E2.
      subst t1 t2. split; [now rewrite app_nil_r | reflexivity].
    + left. exists l. simpl in E2. injection E2 as Eev Epost.
      subst x post. now split.
  - right. exists l. now split.
Qed.

Section BindSteps.

Context {St Ev A B : Type}.
Variables (m : M St Ev A) (k : A -> M St Ev B).

Lemma trace_bind_ok (s s1 : St) (a : A) (t1 : list Ev) :
  m s = (Ok a, s1, t1) -> trace (bind m k s) = t1 ++ trace (k a s1).
Proof.
  intros Hm. unfold bind, trace. rewrite Hm.
  now destruct (k a s1) as [[r s2] t2].
Qed.

Lemma outcome_bind_ok (s s1 : St) (a : A) (t1 : list Ev) :
  m s = (Ok a, s1, t1) -> outcome (bind m k s) = outcome (k a s1).
Proof.
  intros Hm. unfold bind, outcome. rewrite Hm.
  now destruct (k a s1) as [[r s2] t2].
Qed.

Lemma trace_bind_raise (s s1 : St) (e : exn) (t1 : list Ev) :
  m s = (Raise e, s1, t1) -> trace (bind m k s) = t1.
Proof. intros Hm. unfold bind, trace. now rewrite Hm. Qed.

Lemma outcome_bind_raise (s s1 : St) (e : exn) (t1 : list Ev) :
  m s = (Raise e, s1, t1) -> outcome (bind m k s) = Raise e.
Proof. intros Hm. unfold bind, outcome. now rewrite Hm. Qed.

End BindSteps.

(** ** The shape of the account pass *)

Section AccountPass.

Import Scim Rucio Expect.

Context {St : Type} `{Core St}.

Lemma after_creation_follows (acc : InternalAccount) :
  emits (Forall (follows_creation acc))
    (bind call_list_rses (fun rses =>
       bind (for_each rses (fun rse_obj =>
               call_set_local_account_limit acc (rse_id rse_obj)
                 1000000000000))
         (fun _ =>
            try_except (call_add_account_attribute acc "admin" "True")
              (fun _ => ret tt)))).
Proof.
  destruct (Forall_monoid (follows_creation acc)) as [Nil App].
  apply emits_bind; [assumption | | intros rses].
  { apply emits_invoke. intros r. repeat constructor. }
  apply emits_bind; [assumption | | intros _].
  { apply emits_for_each; [assumption | assumption |]. intros rse_obj.
    apply emits_invoke. intros r. repeat constructor. }
  apply emits_try_except; [assumption | | intros e; now apply emits_ret].
  apply emits_invoke. intros r. repeat constructor.
Qed.

(** What the account pass does for one user is one block of calls about
    that user's account. *)
Lemma sync_accounts_body_block (u : user) (s : St) :
  account_block (account_of u) (trace (sync_accounts_body u s)).
Proof.
  unfold sync_accounts_body, account_of.
  set (acc := mkInternalAccount (userName u)).
  destruct (emails u) as [|e0 es].
  { rewrite (trace_bind_raise _ _ s s IndexError []) by reflexivity.
    constructor. }
  rewrite (trace_bind_ok _ _ s s e0 []) by reflexivity. cbn [app].
  destruct (PyStr.len (userName u) >? 25)%Z; [constructor|].
  destruct (account_exists acc s) as [[found|e] s1] eqn:Probe.
  2:{ rewrite (trace_bind_raise _ _ s s1 e [Ev (AccountExists acc) (Raised e)]).
      - constructor.
      - unfold call_account_exists, invoke. now rewrite Probe. }
  rewrite (trace_bind_ok _ _ s s1 found
             [Ev (AccountExists acc) (ReturnedBool found)]).
  2:{ unfold call_account_exists, invoke. now rewrite Probe. }
  destruct found; cbn [negb app]; [constructor|].
  destruct (add_account acc SERVICE (value e0) s1) as [[[]|e] s2] eqn:Add.
  2:{ rewrite (trace_bind_raise _ _ s1 s2 e
                 [Ev (AddAccount acc SERVICE (value e0)) (Raised e)]).
      - constructor.
      - unfold call_add_account, invoke. now rewrite Add. }
  rewrite (trace_bind_ok _ _ s1 s2 tt
             [Ev (AddAccount acc SERVICE (value e0)) Returned]).
  2:{ unfold call_add_account, invoke. now rewrite Add. }
  cbn [app]. constructor. apply after_creation_follows.
Qed.

(** A property of traces that holds of the two session calls and of
    every block, and that concatenation preserves, holds of the trace
    of the account pass. *)
Lemma sync_accounts_emits (P : list event -> Prop)
  (self : IAM_RUCIO_SYNC) (iam_users : list user) :
  P [] ->
  (forall t1 t2, P t1 -> P t2 -> P (t1 ++ t2)) ->
  (forall r, P [Ev GetSession r]) ->
  (forall r, P [Ev SessionConnection r]) ->
  (forall acc t, account_block acc t -> P t) ->
  emits P (sync_accounts self iam_users).
Proof.
  intros Nil App Sess Conn Block. unfold sync_accounts, open_session.
  apply emits_bind; [assumption | | intros _].
  { apply emits_bind; [assumption | | intros _];
      apply emits_invoke; intros r; [apply Sess | apply Conn]. }
  apply emits_for_each; [assumption | assumption |].
  intros u s. apply (Block (account_of u)), sync_accounts_body_block.
Qed.

End AccountPass.

(** ** Probes and creations in the account pass *)

Section AccountPassOrder.

Import Scim Rucio Expect.

Lemma follows_not_creation (acc a : InternalAccount) (type : AccountType)
  (email : string) (r : reply) (tail pre post : list event) :
  Forall (follows_creation acc) tail ->
  tail <> pre ++ Ev (AddAccount a type email) r :: post.
Proof.
  intros HF Eq. subst tail. apply Forall_app in HF as [_ HF].
  inversion HF as [|? ? Hev _]. exact Hev.
Qed.

Lemma probed_before_creation_app (t1 t2 : list event) :
  probed_before_creation t1 -> probed_before_creation t2 ->
  probed_before_creation (t1 ++ t2).
Proof.
  intros H1 H2 pre post acc type email r Eq.
  apply app_eq_app_cons in Eq as [(l & E1 & _)|(l & Epre & E2)].
  - exact (H1 _ _ _ _ _ _ E1).
  - destruct (H2 _ _ _ _ _ _ E2) as [pre' ->].
    exists (t1 ++ pre'). now rewrite Epre, app_assoc.
Qed.

Lemma probed_before_creation_single (c : call) (r : reply) :
  (forall acc type email, c <> AddAccount acc type email) ->
  probed_before_creation [Ev c r].
Proof.
  intros Hc pre post acc type email r0 Eq.
  destruct pre as [|x [|y pre]]; try discriminate.
  injection Eq as Ec _. now elim (Hc acc type email).
Qed.

Lemma probed_before_creation_block (acc : InternalAccount)
  (t : list event) :
  account_block acc t -> probed_before_creation t.
Proof.
  intros [ | r | email e | email tail Htail] pre post a type em r0 Eq.
  - now destruct pre.
  - destruct pre as [|x [|y pre]]; discriminate.
  - destruct pre as [|x [|y [|z pre]]]; try discriminate.
    injection Eq as <- Ea _ _ _. subst a. now exists [].
  - destruct pre as [|x [|y pre]]; try discriminate.
    + injection Eq as <- Ea _ _ _. subst a. now exists [].
    + injection Eq as _ _ Etail.
      now elim (follows_not_creation acc a type em r0 tail pre post Htail).
Qed.

Context {St : Type} `{Core St}.

Lemma sync_accounts_probed_before_creation (self : IAM_RUCIO_SYNC)
  (iam_users : list user) :
  emits probed_before_creation (sync_accounts self iam_users).
Proof.
  apply sync_accounts_emits.
  - intros pre post acc type email r Eq. now destruct pre.
  - apply probed_before_creation_app.
  - intros r. now apply probed_before_creation_single.
  - intros r. now apply probed_before_creation_single.
  - apply probed_before_creation_block.
Qed.

End AccountPassOrder.

(** ** The identity passes *)

Section CallsOfLoops.

Import Rucio.

Context {St A : Type}.
Variables (body : A -> M St event unit) (expected : A -> list call).

(** A loop whose body always ends normally, having made the calls
    [expected], ends normally, having made them for every element. *)
Lemma for_each_calls (l : list A) :
  (forall x s, In x l ->
               outcome (body x s) = Ok tt
               /\ Trace.calls (trace (body x s)) = expected x) ->
  forall s,
    outcome (for_each l body s) = Ok tt
    /\ Trace.calls (trace (for_each l body s)) = flat_map expected l.
Proof.
  induction l as [|x l IH]; intros Hbody s; [split; reflexivity|].
  cbn [for_each flat_map].
  destruct (Hbody x s (or_introl eq_refl)) as [Hout Hcalls].
  destruct (body x s) as [[r s1] t1] eqn:Run.
  unfold outcome, trace in Hout, Hcalls. cbn [fst snd] in Hout, Hcalls.
  subst r.
  rewrite (outcome_bind_ok _ _ s s1 tt t1 Run).
  rewrite (trace_bind_ok _ _ s s1 tt t1 Run).
  destruct (IH (fun y s' Hy => Hbody y s' (or_intror Hy)) s1) as [Ho Hc].
  split; [assumption|].
  unfold Trace.calls in *. now rewrite map_app, Hcalls, Hc.
Qed.

End CallsOfLoops.

Section IdentityPasses.

Import Scim Rucio Expect.

Context {St : Type} `{Core St}.

(** A link attempt ends normally whatever the store answers. *)
Lemma link_attempt (identity : string) (type : IdentityType)
  (acc : InternalAccount) (email : string) (s : St) :
  let run :=
    try_except (call_add_account_identity identity type acc email)
      (fun _ => ret tt) s in
  outcome run = Ok tt
  /\ Trace.calls (trace run) = [AddAccountIdentity identity type acc email].
Proof.
  cbn zeta. unfold try_except, call_add_account_identity, invoke.
  destruct (add_account_identity identity type acc email s)
    as [[[]|e] s1]; split; reflexivity.
Qed.

Lemma sync_oidc_body_calls (self : IAM_RUCIO_SYNC) (u : user) (s : St) :
  emails u <> [] ->
  outcome (sync_oidc_body self u s) = Ok tt
  /\ Trace.calls (trace (sync_oidc_body self u s))
     = if short_name u then [oidc_link self u] else [].
Proof.
  intros Hmail. unfold sync_oidc_body, oidc_link, first_email, short_name,
    account_of.
  destruct (emails u) as [|e0 es]; [congruence|].
  rewrite (outcome_bind_ok _ _ s s e0 []) by reflexivity.
  rewrite (trace_bind_ok _ _ s s e0 []) by reflexivity. cbn [app].
  destruct (PyStr.len (userName u) >? 25)%Z; cbn [negb].
  - split; reflexivity.
  - apply link_attempt.
Qed.

Lemma sync_x509_body_calls (u : user) (s : St) :
  emails u <> [] ->
  outcome (sync_x509_body u s) = Ok tt
  /\ Trace.calls (trace (sync_x509_body u s)) = x509_links_of u.
Proof.
  intros Hmail. unfold sync_x509_body, x509_links_of, first_email,
    account_of.
  destruct (emails u) as [|e0 es]; [congruence|].
  rewrite (outcome_bind_ok _ _ s s e0 []) by reflexivity.
  rewrite (trace_bind_ok _ _ s s e0 []) by reflexivity. cbn [app].
  destruct (IndigoUser u) as [indigo_user|]; [|split; reflexivity].
  destruct (certificates indigo_user) as [certs|]; [|split; reflexivity].
  apply for_each_calls. intros c s' _. unfold sync_x509_certificate.
  destruct (subjectDn c) as [dn|]; [apply link_attempt | split; reflexivity].
Qed.

Lemma filter_as_flat_map {X Y : Type} (keep : X -> bool) (f : X -> Y)
  (l : list X) :
  flat_map (fun x => if keep x then [f x] else []) l = map f (filter keep l).
Proof.
  induction l as [|x l IH]; [reflexivity|]. cbn [flat_map filter].
  destruct (keep x); cbn [app map]; now rewrite IH.
Qed.

(** A pass is its prologue followed by its loop. *)
Lemma after_open_session (loop : M St event unit) (expected : list call)
  (s : St) :
  (forall s0, outcome (loop s0) = Ok tt
              /\ Trace.calls (trace (loop s0)) = expected) ->
  outcome (open_session s) = Ok tt ->
  outcome (bind open_session (fun _ => loop) s) = Ok tt
  /\ Trace.calls (trace (bind open_session (fun _ => loop) s))
     = Trace.calls (trace (open_session s)) ++ expected.
Proof.
  intros Hloop Hopen.
  destruct (open_session s) as [[r s0] t0] eqn:Run.
  unfold outcome in Hopen. cbn [fst] in Hopen. subst r.
  rewrite (outcome_bind_ok _ _ s s0 tt t0 Run).
  rewrite (trace_bind_ok _ _ s s0 tt t0 Run).
  destruct (Hloop s0) as [Ho Hc]. split; [assumption|].
  unfold Trace.calls in *. cbn [trace snd]. now rewrite map_app, Hc.
Qed.

Lemma sync_oidc_calls (self : IAM_RUCIO_SYNC) (iam_users : list user)
  (s : St) :
  Forall (fun u => emails u <> []) iam_users ->
  outcome (open_session s) = Ok tt ->
  outcome (sync_oidc self iam_users s) = Ok tt
  /\ Trace.calls (trace (sync_oidc self iam_users s))
     = Trace.calls (trace (open_session s)) ++ oidc_links self iam_users.
Proof.
  intros Hmail. unfold sync_oidc, oidc_links. apply after_open_session.
  intros s0. rewrite <- filter_as_flat_map. apply for_each_calls.
  intros u s1 Hu. apply sync_oidc_body_calls.
  rewrite Forall_forall in Hmail. now apply Hmail.
Qed.

Lemma sync_x509_calls (self : IAM_RUCIO_SYNC) (iam_users : list user)
  (s : St) :
  Forall (fun u => emails u <> []) iam_users ->
  outcome (open_session s) = Ok tt ->
  outcome (sync_x509 self iam_users s) = Ok tt
  /\ Trace.calls (trace (sync_x509 self iam_users s))
     = Trace.calls (trace (open_session s)) ++ x509_links iam_users.
Proof.
  intros Hmail. unfold sync_x509, x509_links. apply after_open_session.
  intros s0. apply for_each_calls.
  intros u s1 Hu. apply sync_x509_body_calls.
  rewrite Forall_forall in Hmail. now apply Hmail.
Qed.

(** Neither identity pass ever asks the store whether something
    exists. *)
Lemma identity_passes_never_probe (self : IAM_RUCIO_SYNC)
  (iam_users : list user) :
  emits (Forall (fun ev => Trace.probes (event_call ev) = false))
    (sync_oidc self iam_users)
  /\ emits (Forall (fun ev => Trace.probes (event_call ev) = false))
       (sync_x509 self iam_users).
Proof.
  destruct (Forall_monoid (fun ev => Trace.probes (event_call ev) = false))
    as [Nil App].
  assert (Open : emits (Forall (fun ev => Trace.probes (event_call ev) = false))
                   open_session).
  { apply emits_bind; [assumption | | intros _];
      apply emits_invoke; intros r; repeat constructor. }
  assert (Link : forall identity type acc email,
             emits (Forall (fun ev => Trace.probes (event_call ev) = false))
               (try_except
                  (call_add_account_identity identity type acc email)
                  (fun _ => ret tt))).
  { intros. apply emits_try_except; [assumption | | intros e; now apply emits_ret].
    apply emits_invoke. intros r. repeat constructor. }
  split; (apply emits_bind; [assumption | assumption | intros _]);
    (apply emits_for_each; [assumption | assumption | intros u]).
  - unfold sync_oidc_body.
    apply emits_bind; [assumption | now apply emits_index | intros e0].
    destruct (PyStr.len (userName u) >? 25)%Z; [now apply emits_ret|].
    apply Link.
  - unfold sync_x509_body.
    apply emits_bind; [assumption | now apply emits_index | intros e0].
    destruct (IndigoUser u) as [iu|]; [|now apply emits_ret].
    destruct (certificates iu) as [certs|]; [|now apply emits_ret].
    apply emits_for_each; [assumption | assumption | intros c].
    unfold sync_x509_certificate.
    destruct (subjectDn c); [apply Link | now apply emits_ret].
Qed.

End IdentityPasses.

Lemma count_zero_of_Forall (f : Rucio.call -> bool) (t : list Rucio.event) :
  Forall (fun ev => f (Rucio.event_call ev) = false) t ->
  Trace.count f t = 0%nat.
Proof.
  induction 1 as [|ev t Hev _ IH]; [reflexivity|].
  unfold Trace.count, Trace.calls in *. cbn [map filter].
  now rewrite Hev.
Qed.

(** C5, as the code has it.  In the account pass every account creation
    comes right after the store answered that this account does not
    exist.  The OIDC and X509 passes never ask the store whether an
    account or an identity exists: their link calls are issued without a
    probe. *)
Theorem probe_precedes_creation_only :
  forall (St : Type) (core : Rucio.Core St) (self : IAM_RUCIO_SYNC)
         (iam_users : list Scim.user) (s : St),
    Expect.probed_before_creation (trace (sync_accounts self iam_users s))
    /\ Trace.count Trace.probes (trace (sync_oidc self iam_users s)) = 0%nat
    /\ Trace.count Trace.probes (trace (sync_x509 self iam_users s)) = 0%nat.
Proof.
  intros St core self iam_users s.
  destruct (identity_passes_never_probe self iam_users) as [Oidc X509].
  repeat split.
  - apply sync_accounts_probed_before_creation.
  - apply count_zero_of_Forall, Oidc.
  - apply count_zero_of_Forall, X509.
Qed.

Lemma probe_precedes_creation_only_witness :
  trace (sync_accounts Sample.self [Sample.alice] MemStore.empty)
  = [Rucio.Ev Rucio.GetSession Rucio.Returned;
     Rucio.Ev Rucio.SessionConnection Rucio.Returned;
     Expect.absent (Expect.account_of Sample.alice)]
    ++ Rucio.Ev (Rucio.AddAccount (Expect.account_of Sample.alice)
                   Rucio.SERVICE "alice@example.org") Rucio.Returned
    :: skipn 4 (trace (sync_accounts Sample.self [Sample.alice] MemStore.empty))
  /\ exists pre',
      [Rucio.Ev Rucio.GetSession Rucio.Returned;
       Rucio.Ev Rucio.SessionConnection Rucio.Returned;
       Expect.absent (Expect.account_of Sample.alice)]
      = pre' ++ [Expect.absent (Expect.account_of Sample.alice)].
Proof.
  assert (Eq : trace (sync_accounts Sample.self [Sample.alice] MemStore.empty)
               = [Rucio.Ev Rucio.GetSession Rucio.Returned;
                  Rucio.Ev Rucio.SessionConnection Rucio.Returned;
                  Expect.absent (Expect.account_of Sample.alice)]
                 ++ Rucio.Ev (Rucio.AddAccount (Expect.account_of Sample.alice)
                                Rucio.SERVICE "alice@example.org")
                      Rucio.Returned
                 :: skipn 4 (trace (sync_accounts Sample.self [Sample.alice]
                                      MemStore.empty)))
    by reflexivity.
  split; [exact Eq|].
  exact (proj1 (probe_precedes_creation_only MemStore.t MemStore.core
                  Sample.self [Sample.alice] MemStore.empty)
           _ _ _ _ _ _ Eq).
Defined.

(** C5 as stated fails for identity links: with the account of alice in
    the store, the OIDC pass issues its link call with no probe before
    it, and a second run over the same directory issues the same link
    call again, which the store rejects as a duplicate. *)
Lemma sync_oidc_links_without_probe :
  trace (sync_oidc Sample.self [Sample.alice] (MemStore.holding ["alice"]))
  = [Rucio.Ev Rucio.GetSession Rucio.Returned;
     Rucio.Ev Rucio.SessionConnection Rucio.Returned;
     Rucio.Ev (Expect.oidc_link Sample.self Sample.alice) Rucio.Returned]
  /\ trace (sync_oidc Sample.self [Sample.alice]
              (final (sync_oidc Sample.self [Sample.alice]
                        (MemStore.holding ["alice"]))))
     = [Rucio.Ev Rucio.GetSession Rucio.Returned;
        Rucio.Ev Rucio.SessionConnection Rucio.Returned;
        Rucio.Ev (Expect.oidc_link Sample.self Sample.alice)
          (Rucio.Raised (Error "Duplicate"))].
Proof. split; reflexivity. Qed.

(** C8, as the code has it.  Once the session is open and every user has
    an email, the OIDC and X509 passes end normally whatever the store
    answers to the link calls, and they attempt every link in order: the
    OIDC pass one per user with a name of at most 25 characters, the X509
    pass one per certificate with a subject DN of every user.  A failed
    link changes neither the outcome nor the links attempted after it;
    the passes return nothing, so no failure count exists. *)
Theorem identity_passes_ignore_link_failures :
  forall (St : Type) (core : Rucio.Core St) (self : IAM_RUCIO_SYNC)
         (iam_users : list Scim.user) (s : St),
    Forall (fun u => Scim.emails u <> []) iam_users ->
    outcome (open_session s) = Ok tt ->
    (outcome (sync_oidc self iam_users s) = Ok tt
     /\ Trace.calls (trace (sync_oidc self iam_users s))
        = Trace.calls (trace (open_session s))
          ++ Expect.oidc_links self iam_users)
    /\ (outcome (sync_x509 self iam_users s) = Ok tt
        /\ Trace.calls (trace (sync_x509 self iam_users s))
           = Trace.calls (trace (open_session s))
             ++ Expect.x509_links iam_users).
Proof.
  intros St core self iam_users s Hmail Hopen. split.
  - now apply sync_oidc_calls.
  - now apply sync_x509_calls.
Qed.

Lemma identity_passes_ignore_link_failures_witness :
  Forall (fun u => Scim.emails u <> [])
    [Sample.alice; Sample.bob; Sample.carol]
  /\ outcome (open_session MemStore.empty) = Ok tt
  /\ existsb (fun ev => match ev with
                        | Rucio.Ev _ (Rucio.Raised _) => true
                        | _ => false
                        end)
       (trace (sync_oidc Sample.self [Sample.alice; Sample.bob; Sample.carol]
                 MemStore.empty)) = true
  /\ outcome (sync_oidc Sample.self [Sample.alice; Sample.bob; Sample.carol]
                MemStore.empty) = Ok tt
  /\ outcome (sync_x509 Sample.self [Sample.alice; Sample.bob; Sample.carol]
                MemStore.empty) = Ok tt.
Proof.
  assert (Hmail : Forall (fun u => Scim.emails u <> [])
                    [Sample.alice; Sample.bob; Sample.carol])
    by (repeat constructor; discriminate).
  assert (Hopen : outcome (open_session MemStore.empty) = Ok tt)
    by reflexivity.
  split; [exact Hmail|]. split; [exact Hopen|]. split; [reflexivity|].
  destruct (identity_passes_ignore_link_failures MemStore.t MemStore.core
              Sample.self [Sample.alice; Sample.bob; Sample.carol]
              MemStore.empty Hmail Hopen) as [[Oidc _] [X509 _]].
  split; [exact Oidc | exact X509].
Defined.

(** C8 as stated fails on the failure count: the OIDC pass gives back the
    same thing, [Ok tt] (Python's [None]), when the link of alice is
    rejected by the store and when it is accepted, and the rejecting
    store is left as it was; nothing computed from what the pass returns
    can count the failed user. *)
Lemma link_failure_is_not_counted :
  trace (sync_oidc Sample.self [Sample.alice] MemStore.empty)
  = [Rucio.Ev Rucio.GetSession Rucio.Returned;
     Rucio.Ev Rucio.SessionConnection Rucio.Returned;
     Rucio.Ev (Expect.oidc_link Sample.self Sample.alice)
       (Rucio.Raised (Error "AccountNotFound"))]
  /\ final (sync_oidc Sample.self [Sample.alice] MemStore.empty)
     = MemStore.empty
  /\ outcome (sync_oidc Sample.self [Sample.alice] MemStore.empty)
     = outcome (sync_oidc Sample.self [Sample.alice]
                  (MemStore.holding ["alice"]))
  /\ ~ (exists failure_count : result unit -> nat,
          failure_count
            (outcome (sync_oidc Sample.self [Sample.alice] MemStore.empty))
          = 1%nat
          /\ failure_count
               (outcome (sync_oidc Sample.self [Sample.alice]
                           (MemStore.holding ["alice"])))
             = 0%nat).
Proof.
  repeat split.
  intros (failure_count & Hfail & Hok).
  change (failure_count (Ok tt) = 1%nat) in Hfail.
  change (failure_count (Ok tt) = 0%nat) in Hok.
  congruence.
Qed.

(** ** Creation, quota and attribute calls in the account pass *)

Section AccountPassProvisioning.

Import Scim Rucio Expect.

Lemma count_app (f : call -> bool) (t1 t2 : list event) :
  Trace.count f (t1 ++ t2) = (Trace.count f t1 + Trace.count f t2)%nat.
Proof.
  unfold Trace.count, Trace.calls.
  now rewrite map_app, filter_app, length_app.
Qed.

Lemma untouched_unless_absent_app (acc : InternalAccount)
  (t1 t2 : list event) :
  untouched_unless_absent acc t1 -> untouched_unless_absent acc t2 ->
  untouched_unless_absent acc (t1 ++ t2).
Proof.
  intros H1 H2 Habs. rewrite existsb_app in Habs.
  apply orb_false_elim in Habs as [A1 A2].
  destruct (H1 A1) as (C1 & G1 & T1), (H2 A2) as (C2 & G2 & T2).
  rewrite !count_app. lia.
Qed.

(** What follows the creation of another account does not touch
    [acc]. *)
Lemma follows_other_account (a acc : InternalAccount) (tail : list event) :
  Trace.same_account a acc = false ->
  Forall (follows_creation a) tail ->
  Trace.count (Trace.creates acc) tail = 0%nat
  /\ Trace.count (Trace.grants acc) tail = 0%nat
  /\ Trace.count (Trace.attaches acc) tail = 0%nat.
Proof.
  intros Hne HF.
  repeat split; apply count_zero_of_Forall;
    (eapply Forall_impl; [|exact HF]);
    intros [c r] Hev; unfold follows_creation in Hev; cbn in Hev |- *;
    destruct c; try contradiction; try reflexivity; now subst.
Qed.

Lemma untouched_unless_absent_block (a acc : InternalAccount)
  (t : list event) :
  account_block a t -> untouched_unless_absent acc t.
Proof.
  intros [ | r | email e | email tail Htail] Habs.
  - repeat split.
  - repeat split.
  - cbn in Habs. apply orb_false_elim in Habs as [Hne _].
    unfold Trace.count. cbn. rewrite Hne. repeat split.
  - cbn [existsb absent Trace.found_absent] in Habs.
    apply orb_false_elim in Habs as [Hne _].
    destruct (follows_other_account a acc tail Hne Htail) as (C & G & T).
    change (absent a :: Ev (AddAccount a SERVICE email) Returned :: tail)
      with ([absent a; Ev (AddAccount a SERVICE email) Returned] ++ tail).
    rewrite !count_app, C, G, T.
    unfold Trace.count. cbn. rewrite Hne. repeat split.
Qed.

Lemma provisioned_after_creation_app (t1 t2 : list event) :
  provisioned_after_creation t1 -> provisioned_after_creation t2 ->
  provisioned_after_creation (t1 ++ t2).
Proof.
  intros H1 H2 pre post ev acc Eq Hev.
  apply app_eq_app_cons in Eq as [(l & E1 & _)|(l & Epre & E2)].
  - exact (H1 _ _ _ _ E1 Hev).
  - destruct (H2 _ _ _ _ E2 Hev) as (before & email & between & -> & HF).
    exists (t1 ++ before), email, between.
    split; [now rewrite Epre, app_assoc | assumption].
Qed.

Lemma provisioned_after_creation_none (t : list event) :
  Forall (fun ev => forall acc, ~ provisions acc ev) t ->
  provisioned_after_creation t.
Proof.
  intros HF pre post ev acc Eq Hev. subst t.
  apply Forall_app in HF as [_ HF]. inversion HF as [|? ? Hno _].
  now elim (Hno acc).
Qed.

Lemma provisioned_after_creation_block (a : InternalAccount)
  (t : list event) :
  account_block a t -> provisioned_after_creation t.
Proof.
  intros [ | r | email e | email tail Htail].
  - apply provisioned_after_creation_none. constructor.
  - apply provisioned_after_creation_none.
    repeat constructor. intros acc Hp. exact Hp.
  - apply provisioned_after_creation_none.
    repeat constructor; intros acc Hp; exact Hp.
  - intros pre post ev acc Eq Hev.
    destruct pre as [|x [|y pre]].
    + injection Eq as <- _. elim Hev.
    + injection Eq as _ <- _. elim Hev.
    + injection Eq as <- <- Etail. subst tail.
      apply Forall_app in Htail as [Hpre Hrest].
      inversion Hrest as [|? ? Hfol _].
      assert (a = acc) as ->.
      { destruct ev as [c r]. unfold provisions, follows_creation in *.
        cbn in *. destruct c; try contradiction; congruence. }
      exists [absent acc], email, pre. now split.
Qed.

Context {St : Type} `{Core St}.

Lemma sync_accounts_untouched_unless_absent (self : IAM_RUCIO_SYNC)
  (iam_users : list user) (acc : InternalAccount) :
  emits (untouched_unless_absent acc) (sync_accounts self iam_users).
Proof.
  apply sync_accounts_emits.
  - intros _. repeat split.
  - apply untouched_unless_absent_app.
  - intros r _. repeat split.
  - intros r _. repeat split.
  - intros a t. apply untouched_unless_absent_block.
Qed.

Lemma sync_accounts_provisioned_after_creation (self : IAM_RUCIO_SYNC)
  (iam_users : list user) :
  emits provisioned_after_creation (sync_accounts self iam_users).
Proof.
  apply sync_accounts_emits.
  - apply provisioned_after_creation_none. constructor.
  - apply provisioned_after_creation_app.
  - intros r. apply provisioned_after_creation_none.
    repeat constructor. intros acc Hp. exact Hp.
  - intros r. apply provisioned_after_creation_none.
    repeat constructor. intros acc Hp. exact Hp.
  - apply provisioned_after_creation_block.
Qed.

End AccountPassProvisioning.

(** C6. In the account pass, for every account that the store never
    reports absent (every account that already exists, as on a second run
    over the same users), there is no creation call, no quota grant and
    no attribute attach; and every quota grant and attribute attach that
    is issued comes after the successful creation of its account in the
    same pass, separated from it only by the calls that follow that
    creation. *)
Theorem quota_only_on_creation :
  forall (St : Type) (core : Rucio.Core St) (self : IAM_RUCIO_SYNC)
         (iam_users : list Scim.user) (s : St),
    (forall acc : Rucio.InternalAccount,
        existsb (Trace.found_absent acc)
          (trace (sync_accounts self iam_users s)) = false ->
        Trace.count (Trace.creates acc)
          (trace (sync_accounts self iam_users s)) = 0%nat
        /\ Trace.count (Trace.grants acc)
             (trace (sync_accounts self iam_users s)) = 0%nat
        /\ Trace.count (Trace.attaches acc)
             (trace (sync_accounts self iam_users s)) = 0%nat)
    /\ Expect.provisioned_after_creation
         (trace (sync_accounts self iam_users s)).
Proof.
  intros St core self iam_users s. split.
  - intros acc. apply sync_accounts_untouched_unless_absent.
  - apply sync_accounts_provisioned_after_creation.
Qed.

(** The second run of the account pass, on the store the first run left. *)
Lemma quota_only_on_creation_witness :
  existsb (Trace.found_absent (Expect.account_of Sample.alice))
    (trace (sync_accounts Sample.self [Sample.alice; Sample.bob]
              (final (sync_accounts Sample.self [Sample.alice; Sample.bob]
                        MemStore.empty)))) = false
  /\ Trace.count (Trace.creates (Expect.account_of Sample.alice))
       (trace (sync_accounts Sample.self [Sample.alice; Sample.bob]
                 (final (sync_accounts Sample.self [Sample.alice; Sample.bob]
                           MemStore.empty)))) = 0%nat
  /\ Trace.count (Trace.grants (Expect.account_of Sample.alice))
       (trace (sync_accounts Sample.self [Sample.alice; Sample.bob]
                 (final (sync_accounts Sample.self [Sample.alice; Sample.bob]
                           MemStore.empty)))) = 0%nat
  /\ Trace.count (Trace.attaches (Expect.account_of Sample.alice))
       (trace (sync_accounts Sample.self [Sample.alice; Sample.bob]
                 (final (sync_accounts Sample.self [Sample.alice; Sample.bob]
                           MemStore.empty)))) = 0%nat.
Proof.
  split; [reflexivity|].
  exact (proj1 (quota_only_on_creation MemStore.t MemStore.core Sample.self
                  [Sample.alice; Sample.bob]
                  (final (sync_accounts Sample.self [Sample.alice; Sample.bob]
                            MemStore.empty)))
           (Expect.account_of Sample.alice) eq_refl).
Defined.

(** ** Failures in the account pass *)

Section AccountPassFailures.

Import Scim Rucio Expect.

Context {St : Type}.

Lemma aborts_quiet {A} (r : result A) (s : St) :
  aborts_on_failure (r, s, []).
Proof. left. constructor. Qed.

Lemma aborts_bind {A B} (m : M St event A) (k : A -> M St event B) :
  (forall s, aborts_on_failure (m s)) ->
  (forall a s, aborts_on_failure (k a s)) ->
  forall s, aborts_on_failure (bind m k s).
Proof.
  intros Hm Hk s. specialize (Hm s). unfold bind.
  destruct (m s) as [[[a|e] s1] t1].
  2:{ destruct Hm as [Clean1|(t0 & c & e' & Ht & Clean0 & Hout)];
        [left; exact Clean1 | right; exists t0, c, e'].
      cbn [trace outcome fst snd] in *. repeat split; congruence. }
  destruct Hm as [Clean1|(t0 & c & e & _ & _ & Hout)]; [|discriminate].
  cbn [trace snd] in Clean1.
  specialize (Hk a s1). destruct (k a s1) as [[r s2] t2].
  destruct Hk as [Clean2|(t0 & c & e & Ht & Clean0 & Hout)];
    cbn [trace outcome fst snd] in *.
  - left. apply Forall_app. now split.
  - right. exists (t1 ++ t0), c, e. subst t2. repeat split.
    + now rewrite app_assoc.
    + apply Forall_app. now split.
    + assumption.
Qed.

Lemma aborts_for_each {A} (l : list A) (body : A -> M St event unit) :
  (forall x s, aborts_on_failure (body x s)) ->
  forall s, aborts_on_failure (for_each l body s).
Proof.
  intros Hb. induction l as [|x l IH]; cbn [for_each].
  - intros s. apply aborts_quiet.
  - apply aborts_bind; [apply Hb | intros _; exact IH].
Qed.

(** A call that raises is the last thing its own run does. *)
Lemma aborts_invoke {A} (op : St -> result A * St) (c : call)
  (shown : A -> reply) :
  (forall a, Trace.provisioning_failure (Ev c (shown a)) = false) ->
  forall s,
    aborts_on_failure
      (invoke op (fun r => Ev c match r with
                                | Ok a => shown a
                                | Raise e => Raised e
                                end) s).
Proof.
  intros Hshown s. unfold invoke. destruct (op s) as [[a|e] s1].
  - left. repeat constructor. apply Hshown.
  - right. exists [], c, e. repeat split. constructor.
Qed.

Context `{Core St}.

Lemma aborts_unit_call (op : St -> result unit * St) (c : call) :
  forall s, aborts_on_failure (invoke op (log_unit c) s).
Proof.
  intros s.
  assert (E : invoke op (log_unit c) s
              = invoke op (fun r => Ev c match r with
                                         | Ok a => (fun _ => Returned) a
                                         | Raise e => Raised e
                                         end) s) by reflexivity.
  rewrite E. apply aborts_invoke. intros _. now destruct c.
Qed.

Lemma aborts_attribute (acc : InternalAccount) (key val : string) :
  forall s,
    aborts_on_failure
      (try_except (call_add_account_attribute acc key val)
         (fun _ => ret tt) s).
Proof.
  intros s. unfold try_except, call_add_account_attribute, invoke.
  destruct (add_account_attribute acc key val s) as [[[]|e] s1];
    left; repeat constructor.
Qed.

Lemma sync_accounts_body_aborts (u : user) :
  forall s, aborts_on_failure (sync_accounts_body u s).
Proof.
  unfold sync_accounts_body.
  apply aborts_bind.
  { intros s. unfold index. destruct (nth_error (emails u) 0);
      apply aborts_quiet. }
  intros e0. destruct (PyStr.len (userName u) >? 25)%Z;
    [intros s; apply aborts_quiet|].
  apply aborts_bind.
  { unfold call_account_exists, log_bool. apply aborts_invoke.
    reflexivity. }
  intros found. destruct (negb found); [|intros s; apply aborts_quiet].
  apply aborts_bind; [apply aborts_unit_call | intros _].
  apply aborts_bind.
  { unfold call_list_rses, log_rses. apply aborts_invoke. reflexivity. }
  intros rses. apply aborts_bind; [|intros _; apply aborts_attribute].
  apply aborts_for_each. intros rse_obj. apply aborts_unit_call.
Qed.

Lemma sync_accounts_aborts (self : IAM_RUCIO_SYNC) (iam_users : list user) :
  forall s, aborts_on_failure (sync_accounts self iam_users s).
Proof.
  unfold sync_accounts, open_session.
  apply aborts_bind.
  { apply aborts_bind; [apply aborts_unit_call | intros _].
    apply aborts_unit_call. }
  intros _. apply aborts_for_each. apply sync_accounts_body_aborts.
Qed.

End AccountPassFailures.

(** C7, as the code has it.  In the account pass a failed account
    creation or quota grant is not caught: whenever such a failed call
    appears in the trace of the pass, it is the last call the pass makes
    (no later user is processed) and the pass ends by raising the
    exception of that call. *)
Theorem provisioning_failure_aborts_account_pass :
  forall (St : Type) (core : Rucio.Core St) (self : IAM_RUCIO_SYNC)
         (iam_users : list Scim.user) (s : St)
         (pre post : list Rucio.event) (ev : Rucio.event),
    trace (sync_accounts self iam_users s) = pre ++ ev :: post ->
    Trace.provisioning_failure ev = true ->
    post = []
    /\ exists c e,
        ev = Rucio.Ev c (Rucio.Raised e)
        /\ outcome (sync_accounts self iam_users s) = Raise e.
Proof.
  intros St core self iam_users s pre post ev Eq Hfail.
  destruct (sync_accounts_aborts self iam_users s)
    as [Clean|(t0 & c & e & Ht & Clean0 & Hout)].
  - rewrite Eq in Clean. apply Forall_app in Clean as [_ Clean].
    inversion Clean as [|? ? Hev _]. congruence.
  - rewrite Ht in Eq.
    apply app_eq_app_cons in Eq as [(l & E1 & _)|(l & Epre & E2)].
    + subst t0. apply Forall_app in Clean0 as [_ Clean0].
      inversion Clean0 as [|? ? Hev _]. congruence.
    + destruct l as [|x l].
      * injection E2 as <- <-. split; [reflexivity|]. now exists c, e.
      * injection E2 as _ E2. now destruct l.
Qed.

Lemma provisioning_failure_aborts_account_pass_witness :
  trace (sync_accounts Sample.self [Sample.bob; Sample.carol]
           (MemStore.refusing ["bob"]))
  = [Rucio.Ev Rucio.GetSession Rucio.Returned;
     Rucio.Ev Rucio.SessionConnection Rucio.Returned;
     Expect.absent (Expect.account_of Sample.bob)]
    ++ Rucio.Ev (Rucio.AddAccount (Expect.account_of Sample.bob)
                   Rucio.SERVICE "bob@example.org")
         (Rucio.Raised (Error "InvalidObject"))
    :: []
  /\ outcome (sync_accounts Sample.self [Sample.bob; Sample.carol]
                (MemStore.refusing ["bob"]))
     = Raise (Error "InvalidObject").
Proof.
  split; [reflexivity|].
  destruct (provisioning_failure_aborts_account_pass MemStore.t MemStore.core
              Sample.self [Sample.bob; Sample.carol]
              (MemStore.refusing ["bob"])
              [Rucio.Ev Rucio.GetSession Rucio.Returned;
               Rucio.Ev Rucio.SessionConnection Rucio.Returned;
               Expect.absent (Expect.account_of Sample.bob)]
              []
              (Rucio.Ev (Rucio.AddAccount (Expect.account_of Sample.bob)
                           Rucio.SERVICE "bob@example.org")
                 (Rucio.Raised (Error "InvalidObject")))
              eq_refl eq_refl)
    as (_ & c & e & Hev & Hout).
  injection Hev as _ <-. exact Hout.
Defined.

(** C7 as stated fails: when the store refuses to create the account of
    bob, the account pass raises that failure and stops; carol, the next
    user, is never looked at, and the pass gives back no report. *)
Lemma account_creation_failure_aborts :
  outcome (sync_accounts Sample.self [Sample.bob; Sample.carol]
             (MemStore.refusing ["bob"]))
  = Raise (Error "InvalidObject")
  /\ Trace.count (Trace.about (Expect.account_of Sample.carol))
       (trace (sync_accounts Sample.self [Sample.bob; Sample.carol]
                 (MemStore.refusing ["bob"]))) = 0%nat
  /\ Trace.count (Trace.about (Expect.account_of Sample.carol))
       (trace (sync_accounts Sample.self [Sample.bob; Sample.carol]
                 MemStore.empty)) = 5%nat.
Proof. repeat split. Qed.

(** ** The length bound on user names *)

Section LengthBound.

Import Scim Rucio Expect.

Context {St : Type} `{Core St}.

Lemma sync_accounts_within_bound (self : IAM_RUCIO_SYNC)
  (iam_users : list user) :
  emits (Forall within_bound) (sync_accounts self iam_users).
Proof.
  destruct (Forall_monoid within_bound) as [Nil App].
  unfold sync_accounts, open_session.
  apply emits_bind; [assumption | | intros _].
  { apply emits_bind; [assumption | | intros _];
      apply emits_invoke; intros r; repeat constructor. }
  apply emits_for_each; [assumption | assumption | intros u].
  unfold sync_accounts_body.
  apply emits_bind; [assumption | now apply emits_index | intros e0].
  destruct (Z.gtb_spec (PyStr.len (userName u)) 25) as [Long|Short];
    [now apply emits_ret|].
  apply emits_bind; [assumption | | intros found].
  { apply emits_invoke. intros r. repeat constructor. exact Short. }
  destruct (negb found); [|now apply emits_ret].
  apply emits_bind; [assumption | | intros _].
  { apply emits_invoke. intros r. repeat constructor. exact Short. }
  apply emits_bind; [assumption | | intros rses].
  { apply emits_invoke. intros r. repeat constructor. }
  apply emits_bind; [assumption | | intros _].
  { apply emits_for_each; [assumption | assumption | intros rse_obj].
    apply emits_invoke. intros r. repeat constructor. exact Short. }
  apply emits_try_except; [assumption | | intros e; now apply emits_ret].
  apply emits_invoke. intros r. repeat constructor. exact Short.
Qed.

Lemma sync_oidc_within_bound (self : IAM_RUCIO_SYNC)
  (iam_users : list user) :
  emits (Forall within_bound) (sync_oidc self iam_users).
Proof.
  destruct (Forall_monoid within_bound) as [Nil App].
  unfold sync_oidc, open_session.
  apply emits_bind; [assumption | | intros _].
  { apply emits_bind; [assumption | | intros _];
      apply emits_invoke; intros r; repeat constructor. }
  apply emits_for_each; [assumption | assumption | intros u].
  unfold sync_oidc_body.
  apply emits_bind; [assumption | now apply emits_index | intros e0].
  destruct (Z.gtb_spec (PyStr.len (userName u)) 25) as [Long|Short];
    [now apply emits_ret|].
  apply emits_try_except; [assumption | | intros e; now apply emits_ret].
  apply emits_invoke. intros r. repeat constructor. exact Short.
Qed.

End LengthBound.

(** C1, on the code.  The account pass and the OIDC pass never make a
    call about an account whose name is longer than 25 characters.  The
    X509 pass has no such test: for the user with a name of 26 characters
    and one certificate it submits the X509 link to the store.  A user
    with a name of exactly 25 characters is processed by all three
    passes. *)
Theorem x509_pass_misses_length_filter :
  (forall (St : Type) (core : Rucio.Core St) (self : IAM_RUCIO_SYNC)
          (iam_users : list Scim.user) (s : St),
      Forall Expect.within_bound (trace (sync_accounts self iam_users s))
      /\ Forall Expect.within_bound (trace (sync_oidc self iam_users s)))
  /\ PyStr.len (Scim.userName Sample.long_user) = 26%Z
  /\ trace (sync_x509 Sample.self [Sample.long_user] MemStore.empty)
     = [Rucio.Ev Rucio.GetSession Rucio.Returned;
        Rucio.Ev Rucio.SessionConnection Rucio.Returned;
        Rucio.Ev (Rucio.AddAccountIdentity "/CN=Long" Rucio.X509
                    (Rucio.mkInternalAccount Sample.name26)
                    "long@example.org")
          (Rucio.Raised (Error "AccountNotFound"))]
  /\ ~ Forall Expect.within_bound
         (trace (sync_x509 Sample.self [Sample.long_user] MemStore.empty))
  /\ PyStr.len (Scim.userName Sample.edge_user) = 25%Z
  /\ Trace.count (Trace.about (Expect.account_of Sample.edge_user))
       (trace (sync_accounts Sample.self [Sample.edge_user] MemStore.empty))
     = 5%nat
  /\ Trace.calls (trace (sync_oidc Sample.self [Sample.edge_user]
                           MemStore.empty))
     = [Rucio.GetSession; Rucio.SessionConnection;
        Expect.oidc_link Sample.self Sample.edge_user]
  /\ Trace.calls (trace (sync_x509 Sample.self [Sample.edge_user]
                           MemStore.empty))
     = [Rucio.GetSession; Rucio.SessionConnection;
        Rucio.AddAccountIdentity "/CN=Edge" Rucio.X509
          (Expect.account_of Sample.edge_user) "edge@example.org"].
Proof.
  split.
  { intros St core self iam_users s. split.
    - apply sync_accounts_within_bound.
    - apply sync_oidc_within_bound. }
  repeat split.
  intros HF.
  change (trace (sync_x509 Sample.self [Sample.long_user] MemStore.empty))
    with [Rucio.Ev Rucio.GetSession Rucio.Returned;
          Rucio.Ev Rucio.SessionConnection Rucio.Returned;
          Rucio.Ev (Rucio.AddAccountIdentity "/CN=Long" Rucio.X509
                      (Rucio.mkInternalAccount Sample.name26)
                      "long@example.org")
            (Rucio.Raised (Error "AccountNotFound"))] in HF.
  inversion HF as [|? ? _ HF1]. inversion HF1 as [|? ? _ HF2].
  inversion HF2 as [|? ? Hlong _].
  unfold Expect.within_bound in Hlong. cbn in Hlong. lia.
Qed.

(** * Further properties *)

(** ** The DN transform, in both directions *)

Section JoinFacts.

Variable sep : ascii.

Lemma length_append (a b : string) :
  String.length (a ++ b) = (String.length a + String.length b)%nat.
Proof. induction a as [|c a IH]; simpl; [reflexivity | now rewrite IH]. Qed.

Lemma contains_append (a b : string) :
  PyStr.contains sep (a ++ b) = PyStr.contains sep a || PyStr.contains sep b.
Proof.
  induction a as [|c a IH]; simpl; [reflexivity|].
  now rewrite IH, orb_assoc.
Qed.

(** The characters of the pieces and one separator between two pieces. *)
Lemma length_join (c : ascii) (pieces : list string) :
  String.length (String.concat (String c "") pieces)
  = (list_sum (map String.length pieces) + pred (length pieces))%nat.
Proof.
  induction pieces as [|p [|q pieces] IH]; [reflexivity | simpl; lia |].
  change (String.concat (String c "") (p :: q :: pieces))
    with (p ++ String c (String.concat (String c "") (q :: pieces)))%string.
  rewrite length_append. cbn [String.length]. rewrite IH.
  simpl. lia.
Qed.

(** A join has the character [sep] only if the joining character or a
    piece has it. *)
Lemma contains_join (c : ascii) (pieces : list string) :
  Ascii.eqb c sep = false ->
  Forall (fun piece => PyStr.contains sep piece = false) pieces ->
  PyStr.contains sep (String.concat (String c "") pieces) = false.
Proof.
  intros Hc HF. induction HF as [|p pieces Hp HF IH]; [reflexivity|].
  destruct pieces as [|q pieces]; [exact Hp|].
  change (String.concat (String c "") (p :: q :: pieces))
    with (p ++ String c (String.concat (String c "") (q :: pieces)))%string.
  rewrite contains_append, Hp. cbn [PyStr.contains orb]. now rewrite Hc, IH.
Qed.

(** The pieces of a string without [c] are without [c]. *)
Lemma split_keeps_free (c : ascii) (s : string) :
  PyStr.contains c s = false ->
  Forall (fun piece => PyStr.contains c piece = false) (PyStr.split sep s).
Proof.
  induction s as [|d s IH]; intros Hs; cbn [PyStr.split].
  - repeat constructor.
  - cbn [PyStr.contains] in Hs. apply orb_false_elim in Hs as [Hd Hs].
    specialize (IH Hs).
    destruct (Ascii.eqb d sep).
    + constructor; [reflexivity | exact IH].
    + destruct (PyStr.split sep s) as [|piece pieces].
      * repeat constructor. cbn. now rewrite Hd.
      * inversion IH; subst. constructor; [|assumption].
        cbn. now rewrite Hd.
Qed.

End JoinFacts.

Lemma list_sum_rev (l : list nat) : list_sum (rev l) = list_sum l.
Proof.
  induction l as [|n l IH]; [reflexivity|].
  cbn [rev list_sum]. rewrite list_sum_app, IH. simpl. lia.
Qed.

(** X1. The gridmap key is one character longer than the subject DN it
    comes from, and contains no comma. *)
Theorem make_gridmap_compatible_length_and_commas :
  forall s : string,
    String.length (make_gridmap_compatible s) = S (String.length s)
    /\ PyStr.contains "," (make_gridmap_compatible s) = false.
Proof.
  intros s. unfold make_gridmap_compatible, PyStr.join. split.
  - cbn [append String.length]. f_equal.
    rewrite length_join, map_rev, list_sum_rev, length_rev.
    rewrite <- (join_split "," s) at 3. now rewrite length_join.
  - cbn [append PyStr.contains]. cbn [Ascii.eqb Bool.eqb andb orb].
    apply contains_join; [reflexivity|].
    apply Forall_rev, split_pieces_free.
Qed.

(** X2. On subject DNs without ['/'] the transform can be undone:
    [from_gridmap] gives back the DN, so two such DNs with the same
    gridmap key are the same DN. *)
Theorem from_gridmap_make_gridmap_compatible :
  (forall s : string,
      PyStr.contains "/" s = false ->
      from_gridmap (make_gridmap_compatible s) = s)
  /\ (forall s1 s2 : string,
         PyStr.contains "/" s1 = false ->
         PyStr.contains "/" s2 = false ->
         make_gridmap_compatible s1 = make_gridmap_compatible s2 ->
         s1 = s2).
Proof.
  assert (Back : forall s : string,
             PyStr.contains "/" s = false ->
             from_gridmap (make_gridmap_compatible s) = s).
  { intros s Hs. unfold from_gridmap, make_gridmap_compatible, PyStr.join.
    cbn [append]. rewrite split_at_sep. cbn [tl].
    rewrite split_join.
    - rewrite rev_involutive. apply join_split.
    - intros E. apply (f_equal (@rev string)) in E.
      rewrite rev_involutive in E. cbn in E.
      now apply (split_not_nil "," s).
    - apply Forall_rev. now apply split_keeps_free. }
  split; [exact Back|].
  intros s1 s2 H1 H2 Eq.
  rewrite <- (Back s1 H1), <- (Back s2 H2). now rewrite Eq.
Qed.

Lemma from_gridmap_make_gridmap_compatible_witness :
  PyStr.contains "/" "CN=Alice,OU=Org,O=Example" = false
  /\ from_gridmap (make_gridmap_compatible "CN=Alice,OU=Org,O=Example")
     = "CN=Alice,OU=Org,O=Example".
Proof.
  split; [reflexivity|].
  exact (proj1 from_gridmap_make_gridmap_compatible
           "CN=Alice,OU=Org,O=Example" eq_refl).
Defined.

(** ** The fetch against any server *)

Section FetchAnyServer.

Import Scim Iam.
Local Open Scope Z_scope.

Context {Srv : Type} `{Server Srv}.

Variable self : IAM_RUCIO_SYNC.
Variable access_token : string.

Lemma loop_requests (count : Z) (fuel : nat) :
  forall (startIndex users_so_far : Z) (iam_users : list user) (s : Srv),
    trace (get_list_of_users_loop self access_token count fuel
             startIndex users_so_far iam_users s)
    = map (fun k => {| url := (iam_server self ++ "/scim/Users")%string;
                       bearer := access_token;
                       Iam.startIndex := startIndex + count * Z.of_nat k;
                       Iam.count := count |})
        (seq 0 (length (trace (get_list_of_users_loop self access_token count
                                 fuel startIndex users_so_far iam_users s)))).
Proof.
  induction fuel as [|fuel IH]; intros startIndex users_so_far iam_users s;
    [reflexivity|].
  cbn [get_list_of_users_loop]. unfold bind, requests_get, invoke.
  destruct (get_users _ s) as [[resp|e] s1].
  2:{ cbn. do 2 f_equal. lia. }
  destruct (users_so_far + itemsPerPage resp <? totalResults resp).
  2:{ cbn. do 2 f_equal. lia. }
  specialize (IH (startIndex + count) (users_so_far + itemsPerPage resp)
                 (iam_users ++ Resources resp) s1).
  destruct (get_list_of_users_loop _ _ _ _ _ _ _ _) as [[r s2] t].
  unfold trace in *. cbn [snd app length seq map] in *.
  f_equal; [f_equal; lia|].
  rewrite <- seq_shift, map_map. rewrite IH at 1.
  apply map_ext. intros k. f_equal. lia.
Qed.

(** A loop that has [bound] requests left at most. *)
Lemma loop_bounded (N count : Z) :
  progressing N ->
  forall (fuel : nat) (startIndex users_so_far : Z) (iam_users : list user)
         (s : Srv),
    (Z.to_nat (Z.max 1 (N - users_so_far)) <= fuel)%nat ->
    outcome (get_list_of_users_loop self access_token count fuel
               startIndex users_so_far iam_users s) <> Ok None
    /\ (length (trace (get_list_of_users_loop self access_token count fuel
                         startIndex users_so_far iam_users s))
        <= Z.to_nat (Z.max 1 (N - users_so_far)))%nat.
Proof.
  intros Prog.
  induction fuel as [|fuel IH]; intros startIndex users_so_far iam_users s Hfuel;
    [lia|].
  cbn [get_list_of_users_loop]. unfold bind, requests_get, invoke.
  specialize (Prog {| url := (iam_server self ++ "/scim/Users")%string;
                      bearer := access_token;
                      Iam.startIndex := startIndex;
                      Iam.count := count |} s).
  destruct (get_users _ s) as [[resp|e] s1]; cbn [fst] in Prog.
  2:{ split; [discriminate | cbn; lia]. }
  destruct Prog as [Hitems Htotal].
  destruct (Z.ltb_spec (users_so_far + itemsPerPage resp) (totalResults resp))
    as [More|Stop].
  2:{ split; [discriminate | cbn; lia]. }
  specialize (IH (startIndex + count) (users_so_far + itemsPerPage resp)
                 (iam_users ++ Resources resp) s1).
  destruct IH as [Hout Hlen]; [lia|].
  destruct (get_list_of_users_loop _ _ _ _ _ _ _ _) as [[r s2] t].
  unfold outcome, trace in *. cbn [fst snd app length] in *.
  split; [assumption | lia].
Qed.

End FetchAnyServer.

Lemma loop_collects (self : IAM_RUCIO_SYNC) (access_token : string)
  (count : Z) (answer : Iam.request -> Scim.response) (fuel : nat) :
  forall (startIndex users_so_far : Z) (iam_users l : list Scim.user),
    outcome (get_list_of_users_loop self access_token count fuel
               startIndex users_so_far iam_users answer) = Ok (Some l) ->
    l = iam_users
        ++ flat_map (fun rq => Scim.Resources (answer rq))
             (trace (get_list_of_users_loop self access_token count fuel
                       startIndex users_so_far iam_users answer)).
Proof.
  induction fuel as [|fuel IH]; intros startIndex users_so_far iam_users l;
    [discriminate|].
  cbn [get_list_of_users_loop]. unfold bind, requests_get, invoke.
  cbn [Iam.get_users Stateless.server].
  set (rq := {| Iam.url := _ |}).
  destruct (users_so_far + Scim.itemsPerPage (answer rq)
            <? Scim.totalResults (answer rq))%Z.
  - specialize (IH (startIndex + count)%Z
                   (users_so_far + Scim.itemsPerPage (answer rq))%Z
                   (iam_users ++ Scim.Resources (answer rq)) l).
    destruct (get_list_of_users_loop _ _ _ _ _ _ _ _) as [[r s2] t].
    unfold outcome, trace in *. cbn [fst snd app flat_map] in *.
    intros Hr. rewrite (IH Hr). now rewrite <- app_assoc.
  - unfold outcome, trace, ret. cbn [fst snd app flat_map].
    intros Hr. injection Hr as <-. now rewrite app_nil_r.
Qed.

(** X3. Whatever the server answers, the requests of a fetch are, in
    order, the pages at start index 1, 101, 201, ..., each of 100 items,
    all to [<iam-server>/scim/Users] with the same bearer token. *)
Theorem get_list_of_users_requests :
  forall (Srv : Type) (server : Iam.Server Srv) (fuel : nat)
         (self : IAM_RUCIO_SYNC) (access_token : string) (s : Srv),
    trace (get_list_of_users fuel self access_token s)
    = map (page_request self access_token)
        (seq 0 (length (trace (get_list_of_users fuel self access_token s)))).
Proof.
  intros Srv server fuel self access_token s. unfold get_list_of_users.
  cbn zeta. apply loop_requests.
Qed.

(** X4. Against a server whose every page reports at least one item and
    a total of at most N, the fetch ends (it returns or raises) within
    max(1, N) requests. *)
Theorem get_list_of_users_terminates_on_progress :
  forall (Srv : Type) (server : Iam.Server Srv) (N : Z),
    progressing N ->
    forall (fuel : nat) (self : IAM_RUCIO_SYNC) (access_token : string)
           (s : Srv),
      (Z.to_nat (Z.max 1 N) <= fuel)%nat ->
      outcome (get_list_of_users fuel self access_token s) <> Ok None
      /\ (length (trace (get_list_of_users fuel self access_token s))
          <= Z.to_nat (Z.max 1 N))%nat.
Proof.
  intros Srv server N Prog fuel self access_token s Hfuel.
  unfold get_list_of_users. cbn zeta.
  pose proof (loop_bounded self access_token N 100 Prog fuel 1 0 [] s) as B.
  rewrite Z.sub_0_r in B. now apply B.
Qed.

Lemma trickle_progressing : @progressing Trickle.state Trickle.server 3.
Proof. intros rq s. cbn. lia. Qed.

Lemma get_list_of_users_terminates_on_progress_witness :
  @progressing Trickle.state Trickle.server 3
  /\ (Z.to_nat (Z.max 1 3) <= 5)%nat
  /\ outcome (get_list_of_users 5 Sample.self "token" Trickle.Serving)
     <> Ok None
  /\ (length (trace (get_list_of_users 5 Sample.self "token" Trickle.Serving))
      <= Z.to_nat (Z.max 1 3))%nat.
Proof.
  assert (Hfuel : (Z.to_nat (Z.max 1 3) <= 5)%nat) by (cbn; lia).
  split; [exact trickle_progressing|]. split; [exact Hfuel|].
  exact (get_list_of_users_terminates_on_progress Trickle.state Trickle.server
           3 trickle_progressing 5 Sample.self "token" Trickle.Serving Hfuel).
Defined.

(** X5. Against a server without state, the list the fetch returns is
    the concatenation, in request order, of the [Resources] of the page
    given to each request: no page is dropped, repeated or reordered. *)
Theorem get_list_of_users_collects_pages :
  forall (answer : Iam.request -> Scim.response) (fuel : nat)
         (self : IAM_RUCIO_SYNC) (access_token : string)
         (iam_users : list Scim.user),
    outcome (get_list_of_users fuel self access_token answer)
    = Ok (Some iam_users) ->
    iam_users
    = flat_map (fun rq => Scim.Resources (answer rq))
        (trace (get_list_of_users fuel self access_token answer)).
Proof.
  intros answer fuel self access_token iam_users Hout.
  unfold get_list_of_users in *. cbn zeta in *.
  now rewrite (loop_collects self access_token 100 answer fuel 1 0 []
                 iam_users Hout) at 1.
Qed.

Lemma get_list_of_users_collects_pages_witness :
  outcome (get_list_of_users 2 Sample.self "token"
             (Directory.page [Sample.alice; Sample.bob]))
  = Ok (Some [Sample.alice; Sample.bob])
  /\ [Sample.alice; Sample.bob]
     = flat_map
         (fun rq => Scim.Resources
                      (Directory.page [Sample.alice; Sample.bob] rq))
         (trace (get_list_of_users 2 Sample.self "token"
                   (Directory.page [Sample.alice; Sample.bob]))).
Proof.
  assert (Hout : outcome (get_list_of_users 2 Sample.self "token"
                            (Directory.page [Sample.alice; Sample.bob]))
                 = Ok (Some [Sample.alice; Sample.bob])) by reflexivity.
  split; [exact Hout|].
  exact (get_list_of_users_collects_pages
           (Directory.page [Sample.alice; Sample.bob]) 2 Sample.self "token"
           [Sample.alice; Sample.bob] Hout).
Defined.

(** ** More on the account pass *)

Section OutcomeSteps.

Context {St Ev : Type}.

Lemma outcome_bind_of_ok {A B} (m : M St Ev A) (k : A -> M St Ev B)
  (s : St) (a : A) :
  outcome (m s) = Ok a ->
  outcome (bind m k s) = outcome (k a (final (m s))).
Proof.
  unfold bind, outcome, final. destruct (m s) as [[r s1] t1]. cbn [fst snd].
  intros ->. now destruct (k a s1) as [[r2 s2] t2].
Qed.

Lemma for_each_ok {A} (l : list A) (body : A -> M St Ev unit) :
  (forall x s, In x l -> outcome (body x s) = Ok tt) ->
  forall s, outcome (for_each l body s) = Ok tt.
Proof.
  induction l as [|x l IH]; intros Hb s; [reflexivity|].
  cbn [for_each].
  rewrite (outcome_bind_of_ok _ _ s tt) by (apply Hb; now left).
  apply IH. intros y s' Hy. apply Hb. now right.
Qed.

Lemma try_except_pass_ok (m : M St Ev unit) (s : St) :
  outcome (try_except m (fun _ => ret tt) s) = Ok tt.
Proof.
  unfold try_except, outcome. now destruct (m s) as [[[[]|e] s1] t1].
Qed.

Lemma invoke_ok {A} (op : St -> result A * St) (log : result A -> Ev)
  (s s1 : St) (a : A) :
  op s = (Ok a, s1) -> invoke op log s = (Ok a, s1, [log (Ok a)]).
Proof. intros E. unfold invoke. now rewrite E. Qed.

Lemma emits_for_each_in {A} (P : list Ev -> Prop) (l : list A)
  (body : A -> M St Ev unit) :
  P [] -> (forall t1 t2, P t1 -> P t2 -> P (t1 ++ t2)) ->
  (forall x, In x l -> emits P (body x)) -> emits P (for_each l body).
Proof.
  intros Nil App. induction l as [|x l IH]; intros Hb; cbn [for_each].
  - now apply emits_ret.
  - apply emits_bind; [assumption | apply Hb; now left |].
    intros _. apply IH. intros y Hy. apply Hb. now right.
Qed.

End OutcomeSteps.

Section AccountPassCompletes.

Import Scim Rucio Expect.

Context {St : Type} `{Core St}.

Lemma sync_accounts_body_ok (u : user) (s : St) :
  dependable -> emails u <> [] -> outcome (sync_accounts_body u s) = Ok tt.
Proof.
  intros (_ & _ & Hprobe & Hadd & Hlist & Hlimit) Hmail.
  unfold sync_accounts_body, call_account_exists, call_add_account,
    call_list_rses.
  destruct (emails u) as [|e0 es]; [congruence|].
  rewrite (outcome_bind_ok _ _ s s e0 []) by reflexivity.
  destruct (PyStr.len (userName u) >? 25)%Z; [reflexivity|].
  destruct (Hprobe (mkInternalAccount (userName u)) s) as (found & s1 & E1).
  rewrite (outcome_bind_ok _ _ s s1 found _ (invoke_ok _ _ s s1 found E1)).
  destruct found; [reflexivity|]. cbn [negb].
  destruct (Hadd (mkInternalAccount (userName u)) SERVICE (value e0) s1)
    as ([] & s2 & E2).
  rewrite (outcome_bind_ok _ _ s1 s2 tt _ (invoke_ok _ _ s1 s2 tt E2)).
  destruct (Hlist s2) as (rses & s3 & E3).
  rewrite (outcome_bind_ok _ _ s2 s3 rses _ (invoke_ok _ _ s2 s3 rses E3)).
  rewrite (outcome_bind_of_ok _ _ s3 tt).
  - apply try_except_pass_ok.
  - apply for_each_ok. intros rse_obj s4 _.
    destruct (Hlimit (mkInternalAccount (userName u)) (rse_id rse_obj)
                1000000000000%Z s4) as ([] & s5 & E5).
    unfold call_set_local_account_limit.
    now rewrite (invoke_ok _ _ s4 s5 tt E5).
Qed.

Lemma open_session_ok (s : St) :
  dependable -> outcome (open_session s) = Ok tt.
Proof.
  intros (Hsess & Hconn & _). unfold open_session, call_get_session.
  destruct (Hsess s) as ([] & s1 & E1).
  rewrite (outcome_bind_ok _ _ s s1 tt _ (invoke_ok _ _ s s1 tt E1)).
  destruct (Hconn s1) as ([] & s2 & E2).
  unfold call_session_connection. now rewrite (invoke_ok _ _ s1 s2 tt E2).
Qed.

Local Ltac one_call :=
  apply emits_invoke; intros ?; constructor; [|constructor];
  unfold account_call_for, log_unit, log_bool, log_rses; cbn [event_call].

Lemma sync_accounts_calls_for (self : IAM_RUCIO_SYNC)
  (iam_users : list user) :
  emits (Forall (account_call_for iam_users)) (sync_accounts self iam_users).
Proof.
  destruct (Forall_monoid (account_call_for iam_users)) as [Nil App].
  unfold sync_accounts, open_session.
  apply emits_bind; [assumption | | intros _].
  { apply emits_bind; [assumption | | intros _]; one_call; exact I. }
  apply emits_for_each_in; [assumption | assumption | intros u Hu].
  unfold sync_accounts_body, index.
  destruct (emails u) as [|e0 es] eqn:Hmail; cbn [nth_error].
  { intros s. now rewrite (trace_bind_raise _ _ s s IndexError []). }
  assert (Fst : value e0 = first_email u)
    by (unfold first_email; now rewrite Hmail).
  assert (Mail : emails u <> []) by (rewrite Hmail; discriminate).
  enough (Rest : emits (Forall (account_call_for iam_users))
                   (if (PyStr.len (userName u) >? 25)%Z then ret tt
                    else
                      bind (call_account_exists (mkInternalAccount (userName u)))
                        (fun found =>
                           if negb found then
                             bind (call_add_account
                                     (mkInternalAccount (userName u))
                                     SERVICE (value e0))
                               (fun _ =>
                                  bind call_list_rses (fun rses =>
                                    bind (for_each rses (fun rse_obj =>
                                            call_set_local_account_limit
                                              (mkInternalAccount (userName u))
                                              (rse_id rse_obj) 1000000000000))
                                      (fun _ =>
                                         try_except
                                           (call_add_account_attribute
                                              (mkInternalAccount (userName u))
                                              "admin" "True")
                                           (fun _ => ret tt))))
                           else ret tt))).
  { intros s. rewrite (trace_bind_ok _ _ s s e0 []) by reflexivity.
    apply Rest. }
  destruct (PyStr.len (userName u) >? 25)%Z eqn:Hlen; [now apply emits_ret|].
  assert (Who : exists v, In v iam_users /\ short_name v = true
                          /\ mkInternalAccount (userName u) = account_of v).
  { exists u. split; [exact Hu|].
    split; [unfold short_name; now rewrite Hlen | reflexivity]. }
  apply emits_bind; [assumption | | intros found].
  { one_call. exact Who. }
  destruct (negb found); [|now apply emits_ret].
  apply emits_bind; [assumption | | intros _].
  { one_call. exists u. split; [exact Hu|].
    split; [unfold short_name; now rewrite Hlen|].
    split; [reflexivity|]. split; [reflexivity|].
    split; [rewrite Hmail; discriminate|].
    unfold first_email. now rewrite Hmail. }
  apply emits_bind; [assumption | | intros rses].
  { one_call. exact I. }
  apply emits_bind; [assumption | | intros _].
  { apply emits_for_each; [assumption | assumption | intros rse_obj].
    one_call. split; [exact Who | reflexivity]. }
  apply emits_try_except; [assumption | | intros e; now apply emits_ret].
  one_call. split; [exact Who | split; reflexivity].
Qed.

End AccountPassCompletes.

(** X6. Against a store in which only [add_account_attribute] can raise,
    the account pass over users that all have an email ends normally:
    a failure to attach the admin attribute never stops the pass. *)
Theorem attribute_failure_never_aborts :
  forall (St : Type) (core : Rucio.Core St),
    dependable ->
    forall (self : IAM_RUCIO_SYNC) (iam_users : list Scim.user) (s : St),
      Forall (fun u => Scim.emails u <> []) iam_users ->
      outcome (sync_accounts self iam_users s) = Ok tt.
Proof.
  intros St core Dep self iam_users s Hmail. unfold sync_accounts.
  rewrite (outcome_bind_of_ok _ _ s tt) by now apply open_session_ok.
  apply for_each_ok. intros u s' Hu. apply sync_accounts_body_ok; [assumption|].
  rewrite Forall_forall in Hmail. now apply Hmail.
Qed.

Lemma touchy_dependable : @dependable (list string) Touchy.core.
Proof.
  repeat split; repeat intro; cbn; eauto.
Qed.

Lemma attribute_failure_never_aborts_witness :
  @dependable (list string) Touchy.core
  /\ Forall (fun u => Scim.emails u <> []) [Sample.alice; Sample.bob]
  /\ Trace.count (Trace.attaches (Expect.account_of Sample.alice))
       (filter (fun ev => match ev with
                          | Rucio.Ev _ (Rucio.Raised _) => true
                          | _ => false
                          end)
          (trace (sync_accounts Sample.self [Sample.alice; Sample.bob]
                    (@nil string)))) = 1%nat
  /\ outcome (sync_accounts Sample.self [Sample.alice; Sample.bob]
                (@nil string)) = Ok tt.
Proof.
  assert (Hmail : Forall (fun u => Scim.emails u <> [])
                    [Sample.alice; Sample.bob])
    by (repeat constructor; discriminate).
  split; [exact touchy_dependable|]. split; [exact Hmail|].
  split; [reflexivity|].
  exact (attribute_failure_never_aborts (list string) Touchy.core
           touchy_dependable Sample.self [Sample.alice; Sample.bob] [] Hmail).
Defined.

(** X7. Every call the account pass makes besides opening the session
    and listing the storage elements is about a user of the list it was
    given whose name has at most 25 characters; it creates only
    [SERVICE] accounts, with the first email of that user; every quota it
    grants is 10^12; the only attribute it sets is [admin] to [True]; and
    it never links an identity. *)
Theorem sync_accounts_calls_are_for_listed_users :
  forall (St : Type) (core : Rucio.Core St) (self : IAM_RUCIO_SYNC)
         (iam_users : list Scim.user) (s : St),
    Forall (account_call_for iam_users)
      (trace (sync_accounts self iam_users s)).
Proof.
  intros St core self iam_users s. apply sync_accounts_calls_for.
Qed.

(** ** Configuration *)

Section Configure.

Import Config.

Lemma configure_ok_inv (config_path : string) (env : environment)
  (s : settings) :
  configure config_path env = Ok s ->
  exists s0,
    s = overwrite env s0
    /\ (read env config_path = Ok None /\ s0 = unset
        \/ exists config,
             read env config_path = Ok (Some config)
             /\ from_file env config = Ok s0).
Proof.
  unfold configure, and_then.
  destruct (read env config_path) as [[config|]|e]; [| |discriminate].
  - destruct (from_file env config) as [s0|e] eqn:File; [|discriminate].
    intros Eq. injection Eq as <-. exists s0. split; [reflexivity|].
    right. now exists config.
  - intros Eq. injection Eq as <-. exists unset. split; [reflexivity|].
    now left.
Qed.

Lemma from_file_ok_inv (env : environment) (config : parsed) (s0 : settings) :
  from_file env config = Ok s0 ->
  exists iam client secret tok,
    get config "iam-server" = Ok iam
    /\ get config "client-id" = Ok client
    /\ (if has_option config "client-secret"
        then get config "client-secret" = Ok secret
        else exists path text,
               get config "client-secret-path" = Ok path
               /\ open_read env path = Ok text
               /\ secret = Whitespace.rstrip text)
    /\ (if has_option config "token-server"
        then get config "token-server" = Ok tok
        else tok = iam)
    /\ s0 = {| iam_server := Some iam; client_id := Some client;
               client_secret := Some secret; token_server := Some tok |}.
Proof.
  unfold from_file, and_then.
  destruct (get config "iam-server") as [iam|e]; [|discriminate].
  destruct (get config "client-id") as [client|e]; [|discriminate].
  destruct (has_option config "client-secret") eqn:HasSecret.
  - destruct (get config "client-secret") as [secret|e]; [|discriminate].
    destruct (has_option config "token-server") eqn:HasTok.
    + destruct (get config "token-server") as [tok|e]; [|discriminate].
      intros Eq. injection Eq as <-. exists iam, client, secret, tok.
      repeat split.
    + intros Eq. injection Eq as <-. exists iam, client, secret, iam.
      repeat split.
  - destruct (get config "client-secret-path") as [path|e]; [|discriminate].
    destruct (open_read env path) as [text|e] eqn:Open; [|discriminate].
    destruct (has_option config "token-server") eqn:HasTok.
    + destruct (get config "token-server") as [tok|e]; [|discriminate].
      intros Eq. injection Eq as <-.
      exists iam, client, (Whitespace.rstrip text), tok.
      repeat split. now exists path, text.
    + intros Eq. injection Eq as <-.
      exists iam, client, (Whitespace.rstrip text), iam.
      repeat split. now exists path, text.
Qed.

End Configure.

Section Rstrip.

Import Whitespace.

Lemma rstrip_cuts_spaces (s : string) :
  exists dropped,
    s = (rstrip s ++ dropped)%string /\ all_space dropped = true.
Proof.
  induction s as [|c s (dropped & Eq & Spaces)].
  - now exists EmptyString.
  - cbn [rstrip]. destruct (rstrip s) as [|k kept] eqn:R.
    + cbn [append] in Eq. subst dropped.
      destruct (is_space c) eqn:Hc.
      * exists (String c s). split; [reflexivity|]. cbn. now rewrite Hc.
      * now exists s.
    + exists dropped. split; [|assumption]. cbn [append] in *. now f_equal.
Qed.

Lemma rstrip_ends_clean (s : string) : ends_with_space (rstrip s) = false.
Proof.
  induction s as [|c s IH]; [reflexivity|].
  cbn [rstrip]. destruct (rstrip s) as [|k kept].
  - destruct (is_space c) eqn:Hc; [reflexivity | exact Hc].
  - exact IH.
Qed.

End Rstrip.

(** X8. When [configure] returns, every setting whose environment
    variable is set has the value of the variable, whatever the file
    says. *)
Theorem configure_environment_overrides :
  forall (config_path : string) (env : Config.environment)
         (s : Config.settings),
    Config.configure config_path env = Ok s ->
    (forall v, Config.getenv env "IAM_SERVER" = Some v ->
               Config.iam_server s = Some v)
    /\ (forall v, Config.getenv env "IAM_CLIENT_ID" = Some v ->
                  Config.client_id s = Some v)
    /\ (forall v, Config.getenv env "IAM_CLIENT_SECRET" = Some v ->
                  Config.client_secret s = Some v)
    /\ (forall v, Config.getenv env "IAM_TOKEN_SERVER" = Some v ->
                  Config.token_server s = Some v).
Proof.
  intros config_path env s Hs.
  destruct (configure_ok_inv config_path env s Hs) as (s0 & -> & _).
  unfold Config.overwrite, Config.os_getenv. cbn.
  repeat split; intros v Hv; now rewrite Hv.
Qed.

Lemma configure_environment_overrides_witness :
  Config.configure Script.CONFIG_PATH SampleEnv.with_file
  = Ok {| Config.iam_server := Some "https://env.example.org";
          Config.client_id := Some "file-client";
          Config.client_secret := Some "s3cret";
          Config.token_server := Some "https://file.example.org" |}
  /\ Config.getenv SampleEnv.with_file "IAM_SERVER"
     = Some "https://env.example.org"
  /\ Config.iam_server
       {| Config.iam_server := Some "https://env.example.org";
          Config.client_id := Some "file-client";
          Config.client_secret := Some "s3cret";
          Config.token_server := Some "https://file.example.org" |}
     = Some "https://env.example.org".
Proof.
  assert (Hs : Config.configure Script.CONFIG_PATH SampleEnv.with_file
               = Ok {| Config.iam_server := Some "https://env.example.org";
                       Config.client_id := Some "file-client";
                       Config.client_secret := Some "s3cret";
                       Config.token_server := Some "https://file.example.org" |})
    by reflexivity.
  split; [exact Hs|]. split; [reflexivity|].
  exact (proj1 (configure_environment_overrides _ _ _ Hs) _ eq_refl).
Defined.

(** X9. The token server when [IAM_TOKEN_SERVER] is not set and
    [configure] returns: without a file it is the IAM server; with a
    file that has no [token-server] option it is the [iam-server] of the
    file, also when [IAM_SERVER] overrides the IAM server.  In every case
    a token server left at [None] means the IAM server is [None] too. *)
Theorem configure_token_server_default :
  forall (config_path : string) (env : Config.environment)
         (s : Config.settings),
    Config.configure config_path env = Ok s ->
    (Config.getenv env "IAM_TOKEN_SERVER" = None ->
     Config.read env config_path = Ok None ->
     Config.token_server s = Config.iam_server s)
    /\ (forall config,
           Config.getenv env "IAM_TOKEN_SERVER" = None ->
           Config.read env config_path = Ok (Some config) ->
           Config.has_option config "token-server" = false ->
           exists v, Config.get config "iam-server" = Ok v
                     /\ Config.token_server s = Some v)
    /\ (Config.token_server s = None -> Config.iam_server s = None).
Proof.
  intros config_path env s Hs.
  destruct (configure_ok_inv config_path env s Hs) as (s0 & -> & Src).
  unfold Config.overwrite, Config.os_getenv. cbn.
  split; [|split].
  - intros NoTok NoFile. rewrite NoTok.
    destruct Src as [[_ ->]|(config & Rd & _)]; [|congruence].
    cbn. now destruct (Config.getenv env "IAM_SERVER").
  - intros config NoTok Rd NoOpt. rewrite NoTok.
    destruct Src as [[Rd' _]|(config' & Rd' & File)]; [congruence|].
    assert (config' = config) as -> by congruence.
    destruct (from_file_ok_inv env config s0 File)
      as (iam & client & secret & tok & Giam & _ & _ & Htok & ->).
    rewrite NoOpt in Htok. subst tok. cbn. now exists iam.
  - destruct (Config.getenv env "IAM_TOKEN_SERVER"); [discriminate|].
    destruct (Config.token_server s0); [discriminate|].
    now destruct (Config.getenv env "IAM_SERVER"), (Config.iam_server s0).
Qed.

Lemma configure_token_server_default_witness :
  Config.getenv SampleEnv.with_file "IAM_TOKEN_SERVER" = None
  /\ Config.has_option SampleEnv.file "token-server" = false
  /\ (forall s,
         Config.configure Script.CONFIG_PATH SampleEnv.with_file = Ok s ->
         Config.token_server s = Some "https://file.example.org"
         /\ Config.iam_server s = Some "https://env.example.org").
Proof.
  split; [reflexivity|]. split; [reflexivity|].
  intros s Hs. split.
  - destruct (proj1 (proj2 (configure_token_server_default _ _ _ Hs))
                SampleEnv.file eq_refl eq_refl eq_refl) as (v & Hv & Htok).
    cbn in Hv. injection Hv as <-. exact Htok.
  - assert (E : Config.configure Script.CONFIG_PATH SampleEnv.with_file
                = Ok {| Config.iam_server := Some "https://env.example.org";
                        Config.client_id := Some "file-client";
                        Config.client_secret := Some "s3cret";
                        Config.token_server := Some "https://file.example.org" |})
      by reflexivity.
    rewrite E in Hs. injection Hs as <-. reflexivity.
Defined.

(** X10. A file that was read must give [iam-server] and [client-id]:
    when the file lacks one of them [configure] raises what
    [config.get] raises, and no environment variable makes up for it. *)
Theorem configure_needs_file_options :
  forall (config_path : string) (env : Config.environment)
         (config : Config.parsed) (e : exn),
    Config.read env config_path = Ok (Some config) ->
    (Config.get config "iam-server" = Raise e ->
     Config.configure config_path env = Raise e)
    /\ (forall v,
           Config.get config "iam-server" = Ok v ->
           Config.get config "client-id" = Raise e ->
           Config.configure config_path env = Raise e).
Proof.
  intros config_path env config e Rd.
  unfold Config.configure, Config.from_file, Config.and_then. rewrite Rd.
  split.
  - intros G. now rewrite G.
  - intros v G1 G2. now rewrite G1, G2.
Qed.

Lemma configure_needs_file_options_witness :
  Config.read SampleEnv.with_partial_file Script.CONFIG_PATH
  = Ok (Some SampleEnv.partial_file)
  /\ Config.get SampleEnv.partial_file "iam-server"
     = Raise (Error "NoOptionError")
  /\ Config.getenv SampleEnv.with_partial_file "IAM_SERVER"
     = Some "https://env.example.org"
  /\ Config.configure Script.CONFIG_PATH SampleEnv.with_partial_file
     = Raise (Error "NoOptionError").
Proof.
  split; [reflexivity|]. split; [reflexivity|]. split; [reflexivity|].
  exact (proj1 (configure_needs_file_options Script.CONFIG_PATH
                  SampleEnv.with_partial_file SampleEnv.partial_file
                  (Error "NoOptionError") eq_refl) eq_refl).
Defined.

(** X11. A client secret taken from the file at [client-secret-path]
    (no [client-secret] option, no [IAM_CLIENT_SECRET] variable) is the
    text of that file without its trailing whitespace: the text is the
    secret followed by whitespace only, and the secret does not end with
    a whitespace. *)
Theorem configure_strips_secret_file :
  forall (config_path : string) (env : Config.environment)
         (config : Config.parsed) (path text : string)
         (s : Config.settings),
    Config.read env config_path = Ok (Some config) ->
    Config.has_option config "client-secret" = false ->
    Config.get config "client-secret-path" = Ok path ->
    Config.open_read env path = Ok text ->
    Config.getenv env "IAM_CLIENT_SECRET" = None ->
    Config.configure config_path env = Ok s ->
    exists secret dropped,
      Config.client_secret s = Some secret
      /\ text = (secret ++ dropped)%string
      /\ Whitespace.all_space dropped = true
      /\ Whitespace.ends_with_space secret = false.
Proof.
  intros config_path env config path text s Rd NoOpt Gpath Open NoVar Hs.
  destruct (configure_ok_inv config_path env s Hs) as (s0 & -> & Src).
  destruct Src as [[Rd' _]|(config' & Rd' & File)]; [congruence|].
  assert (config' = config) as -> by congruence.
  destruct (from_file_ok_inv env config s0 File)
    as (iam & client & secret & tok & _ & _ & Hsecret & _ & ->).
  rewrite NoOpt in Hsecret. destruct Hsecret as (path' & text' & G & O & ->).
  assert (path' = path) as -> by congruence.
  assert (text' = text) as -> by congruence.
  destruct (rstrip_cuts_spaces text) as (dropped & Eq & Spaces).
  exists (Whitespace.rstrip text), dropped.
  unfold Config.overwrite, Config.os_getenv. cbn. rewrite NoVar.
  repeat split; try assumption. apply rstrip_ends_clean.
Qed.

Lemma configure_strips_secret_file_witness :
  Config.open_read SampleEnv.with_file "/etc/iam/secret"
  = Ok SampleEnv.secret_text
  /\ Whitespace.ends_with_space SampleEnv.secret_text = true
  /\ exists secret dropped,
      Config.client_secret
        {| Config.iam_server := Some "https://env.example.org";
           Config.client_id := Some "file-client";
           Config.client_secret := Some "s3cret";
           Config.token_server := Some "https://file.example.org" |}
      = Some secret
      /\ SampleEnv.secret_text = (secret ++ dropped)%string
      /\ Whitespace.all_space dropped = true
      /\ Whitespace.ends_with_space secret = false.
Proof.
  split; [reflexivity|]. split; [reflexivity|].
  exact (configure_strips_secret_file Script.CONFIG_PATH SampleEnv.with_file
           SampleEnv.file "/etc/iam/secret" SampleEnv.secret_text _
           eq_refl eq_refl eq_refl eq_refl eq_refl eq_refl).
Defined.

(** ** The script as a whole *)

Section Stages.

Import Script.

Context {Tok Srv St : Type}
  `{Token.Server Tok} `{Iam.Server Srv} `{Rucio.Core St}.

(** What a run of the script after [configure] is made of, stage by
    stage: each stage starts from the collaborator as the stage before
    left it, and a stage that raises ends the run. *)
Lemma run_syncer_stages (fuel : nat) (settings : Config.settings)
  (w : world Tok Srv St) :
  let syncer := configured settings in
  let run := run_syncer fuel settings w in
  let tk := get_token settings (token w) in
  match outcome tk with
  | Raise e => outcome run = Raise e /\ trace run = map Post (trace tk)
  | Ok access_token =>
      let ft := get_list_of_users fuel syncer access_token (iam w) in
      match outcome ft with
      | Raise e =>
          outcome run = Raise e
          /\ trace run = map Post (trace tk) ++ map Get (trace ft)
      | Ok None =>
          outcome run = Ok None
          /\ trace run = map Post (trace tk) ++ map Get (trace ft)
      | Ok (Some iam_users) =>
          let ac := sync_accounts syncer iam_users (rucio w) in
          match outcome ac with
          | Raise e =>
              outcome run = Raise e
              /\ trace run = map Post (trace tk) ++ map Get (trace ft)
                             ++ map Store (trace ac)
          | Ok _ =>
              let oi := sync_oidc syncer iam_users (final ac) in
              match outcome oi with
              | Raise e =>
                  outcome run = Raise e
                  /\ trace run = map Post (trace tk) ++ map Get (trace ft)
                                 ++ map Store (trace ac ++ trace oi)
              | Ok _ =>
                  let x5 := sync_x509 syncer iam_users (final oi) in
                  outcome run = match outcome x5 with
                                | Ok _ => Ok (Some tt)
                                | Raise e => Raise e
                                end
                  /\ trace run = map Post (trace tk) ++ map Get (trace ft)
                                 ++ map Store (trace ac ++ trace oi
                                               ++ trace x5)
              end
          end
      end
  end.
Proof.
  cbn zeta. unfold run_syncer, bind, on_token, on_iam, on_rucio, ret.
  destruct (get_token settings (token w)) as [[[access_token|e] s1] t1];
    unfold outcome, trace, final; cbn [fst snd token iam rucio];
    [|now split].
  destruct (get_list_of_users fuel (configured settings) access_token (iam w))
    as [[[[iam_users|]|e] s2] t2]; cbn [fst snd token iam rucio];
    try (split; [reflexivity | rewrite ?map_app, ?app_nil_r; reflexivity]).
  destruct (sync_accounts (configured settings) iam_users (rucio w))
    as [[[[]|e] s3] t3]; cbn [fst snd token iam rucio];
    try (split; [reflexivity | rewrite ?map_app, ?app_nil_r; reflexivity]).
  destruct (sync_oidc (configured settings) iam_users s3)
    as [[[[]|e] s4] t4]; cbn [fst snd token iam rucio];
    try (split; [reflexivity | rewrite ?map_app, ?app_nil_r; reflexivity]).
  destruct (sync_x509 (configured settings) iam_users s4)
    as [[[[]|e] s5] t5]; cbn [fst snd token iam rucio];
    split; try reflexivity; rewrite ?map_app, ?app_nil_r; reflexivity.
Qed.

Lemma get_token_at_most_once (settings : Config.settings) (s : Tok) :
  (length (trace (get_token settings s)) <= 1)%nat.
Proof.
  unfold get_token. destruct (Config.token_server settings); [|cbn; lia].
  unfold bind, invoke, trace.
  destruct (Token.post _ s) as [[[tok|]|e] s1]; cbn; lia.
Qed.

End Stages.

(** X12. The run is staged: in every run of the script the token
    request (one at most) comes first, then the page requests to the
    directory, then the calls to the store; once a page has been
    requested no token is requested again, and once the store has been
    called the directory is not asked again. *)
Theorem main_is_staged :
  forall (Tok Srv St : Type) (tokens : Token.Server Tok)
         (directory : Iam.Server Srv) (core : Rucio.Core St)
         (fuel : nat) (env : Config.environment)
         (w : Script.world Tok Srv St),
  exists (posts : list Token.request) (gets : list Iam.request)
         (calls : list Rucio.event),
    trace (main fuel env w)
    = map Script.Post posts ++ map Script.Get gets ++ map Script.Store calls
    /\ (length posts <= 1)%nat.
Proof.
  intros Tok Srv St tokens directory core fuel env w. unfold main.
  destruct (Config.configure Script.CONFIG_PATH env) as [settings|e].
  2:{ exists [], [], []. split; [reflexivity | cbn; lia]. }
  pose proof (run_syncer_stages fuel settings w) as Stages.
  pose proof (get_token_at_most_once settings (Script.token w)) as Once.
  cbn zeta in Stages.
  destruct (outcome (get_token settings (Script.token w)))
    as [access_token|e].
  2:{ destruct Stages as [_ ->].
      exists (trace (get_token settings (Script.token w))), [], [].
      split; [now rewrite app_nil_r | assumption]. }
  destruct (outcome (get_list_of_users fuel (configured settings) access_token
                       (Script.iam w))) as [[iam_users|]|e].
  2,3: destruct Stages as [_ ->]; eexists _, _, []; split;
    [now rewrite app_nil_r | assumption].
  destruct (outcome (sync_accounts (configured settings) iam_users
                       (Script.rucio w))) as [[]|e].
  2:{ destruct Stages as [_ ->]. eexists _, _, _. split; [reflexivity|assumption]. }
  destruct (outcome (sync_oidc (configured settings) iam_users _)) as [[]|e];
    destruct Stages as [_ ->]; eexists _, _, _;
    (split; [reflexivity | assumption]).
Qed.

(** X13. With no configuration file and neither [IAM_SERVER] nor
    [IAM_TOKEN_SERVER] set, [configure] does not fail, and the script
    then raises [TypeError] in [get_token] before it has sent anything. *)
Theorem main_without_configuration :
  forall (Tok Srv St : Type) (tokens : Token.Server Tok)
         (directory : Iam.Server Srv) (core : Rucio.Core St)
         (fuel : nat) (env : Config.environment)
         (w : Script.world Tok Srv St),
    Config.read env Script.CONFIG_PATH = Ok None ->
    Config.getenv env "IAM_SERVER" = None ->
    Config.getenv env "IAM_TOKEN_SERVER" = None ->
    (exists settings,
        Config.configure Script.CONFIG_PATH env = Ok settings
        /\ Config.token_server settings = None)
    /\ outcome (main fuel env w) = Raise (Error "TypeError")
    /\ trace (main fuel env w) = [].
Proof.
  intros Tok Srv St tokens directory core fuel env w NoFile NoServer NoTok.
  assert (Conf : Config.configure Script.CONFIG_PATH env
                 = Ok (Config.overwrite env Config.unset)).
  { unfold Config.configure, Config.and_then. now rewrite NoFile. }
  assert (Unset : Config.token_server (Config.overwrite env Config.unset)
                  = None).
  { unfold Config.overwrite, Config.os_getenv. cbn.
    now rewrite NoTok, NoServer. }
  split; [eexists; split; [exact Conf | exact Unset]|].
  unfold main. rewrite Conf.
  pose proof (run_syncer_stages fuel (Config.overwrite env Config.unset) w)
    as Stages.
  cbn zeta in Stages. unfold get_token in Stages. rewrite Unset in Stages.
  exact Stages.
Qed.

Lemma main_without_configuration_witness :
  Config.read SampleEnv.bare Script.CONFIG_PATH = Ok None
  /\ outcome (main 3 SampleEnv.bare
                (Desk.world (Some "token") [Sample.alice] MemStore.empty))
     = Raise (Error "TypeError")
  /\ trace (main 3 SampleEnv.bare
              (Desk.world (Some "token") [Sample.alice] MemStore.empty))
     = [].
Proof.
  split; [reflexivity|].
  exact (proj2 (main_without_configuration _ _ _ _ _ _ 3 SampleEnv.bare
                  (Desk.world (Some "token") [Sample.alice] MemStore.empty)
                  eq_refl eq_refl eq_refl)).
Defined.

(** X14. When [get_token] raises (the token server gives no
    [access_token], or cannot be reached), the script raises the same
    exception and has asked nothing of the directory or of the store. *)
Theorem main_stops_without_token :
  forall (Tok Srv St : Type) (tokens : Token.Server Tok)
         (directory : Iam.Server Srv) (core : Rucio.Core St)
         (fuel : nat) (env : Config.environment)
         (w : Script.world Tok Srv St) (settings : Config.settings) (e : exn),
    Config.configure Script.CONFIG_PATH env = Ok settings ->
    outcome (get_token settings (Script.token w)) = Raise e ->
    outcome (main fuel env w) = Raise e
    /\ Forall (fun ev => Script.is_post ev = true) (trace (main fuel env w)).
Proof.
  intros Tok Srv St tokens directory core fuel env w settings e Conf Denied.
  unfold main. rewrite Conf.
  pose proof (run_syncer_stages fuel settings w) as Stages.
  cbn zeta in Stages. rewrite Denied in Stages. destruct Stages as [-> ->].
  split; [reflexivity|]. apply Forall_map. now apply Forall_forall.
Qed.

Lemma main_stops_without_token_witness :
  outcome (get_token (Config.overwrite SampleEnv.from_variables Config.unset)
             (@None string))
  = Raise (Error "BaseException")
  /\ outcome (main 3 SampleEnv.from_variables
                (Desk.world None [Sample.alice] MemStore.empty))
     = Raise (Error "BaseException")
  /\ length (trace (main 3 SampleEnv.from_variables
                      (Desk.world None [Sample.alice] MemStore.empty)))
     = 1%nat.
Proof.
  split; [reflexivity|].
  split; [|reflexivity].
  exact (proj1 (main_stops_without_token _ _ _ _ _ _ 3
                  SampleEnv.from_variables
                  (Desk.world None [Sample.alice] MemStore.empty)
                  _ _ eq_refl eq_refl)).
Defined.

(** X15. When the fetch raises, the script raises the same exception and
    has made no call to the store: no account is created and no identity
    linked from a directory that was read in part. *)
Theorem main_stops_without_directory :
  forall (Tok Srv St : Type) (tokens : Token.Server Tok)
         (directory : Iam.Server Srv) (core : Rucio.Core St)
         (fuel : nat) (env : Config.environment)
         (w : Script.world Tok Srv St) (settings : Config.settings)
         (access_token : string) (e : exn),
    Config.configure Script.CONFIG_PATH env = Ok settings ->
    outcome (get_token settings (Script.token w)) = Ok access_token ->
    outcome (get_list_of_users fuel (configured settings) access_token
               (Script.iam w)) = Raise e ->
    outcome (main fuel env w) = Raise e
    /\ Forall (fun ev => Script.is_store ev = false) (trace (main fuel env w)).
Proof.
  intros Tok Srv St tokens directory core fuel env w settings access_token e
    Conf Granted Failed.
  unfold main. rewrite Conf.
  pose proof (run_syncer_stages fuel settings w) as Stages.
  cbn zeta in Stages. rewrite Granted, Failed in Stages.
  destruct Stages as [-> ->].
  split; [reflexivity|].
  apply Forall_app; split; apply Forall_map; now apply Forall_forall.
Qed.

Lemma main_stops_without_directory_witness :
  outcome (get_list_of_users 3
             (configured (Config.overwrite SampleEnv.from_variables
                            Config.unset))
             "token" Unreachable.Down)
  = Raise (Error "ConnectionError")
  /\ outcome (main 3 SampleEnv.from_variables
                {| Script.token := Some "token";
                   Script.iam := Unreachable.Down;
                   Script.rucio := MemStore.empty |})
     = Raise (Error "ConnectionError")
  /\ length (trace (main 3 SampleEnv.from_variables
                      {| Script.token := Some "token";
                         Script.iam := Unreachable.Down;
                         Script.rucio := MemStore.empty |}))
     = 2%nat.
Proof.
  split; [reflexivity|]. split; [|reflexivity].
  exact (proj1 (main_stops_without_directory _ _ _ _ _ _ 3
                  SampleEnv.from_variables
                  {| Script.token := Some "token";
                     Script.iam := Unreachable.Down;
                     Script.rucio := MemStore.empty |}
                  _ _ _ eq_refl eq_refl eq_refl)).
Defined.

Lemma account_calls_are_not_links (users : list Scim.user)
  (t : list Rucio.event) :
  Forall (account_call_for users) t ->
  Forall (fun ev => Script.is_link ev = false) (map Script.Store t).
Proof.
  intros HF. apply Forall_map. eapply Forall_impl; [|exact HF].
  intros [c r] Hev. unfold account_call_for in Hev. cbn in Hev |- *.
  destruct c; try reflexivity. contradiction.
Qed.

(** X16. When the account pass raises (a probe, a creation or a quota
    grant failed, or a user has no email), the script raises the same
    exception and the OIDC and X509 passes do not run: no identity link
    is sent to the store, for any user. *)
Theorem main_links_nothing_after_failed_account_pass :
  forall (Tok Srv St : Type) (tokens : Token.Server Tok)
         (directory : Iam.Server Srv) (core : Rucio.Core St)
         (fuel : nat) (env : Config.environment)
         (w : Script.world Tok Srv St) (settings : Config.settings)
         (access_token : string) (iam_users : list Scim.user) (e : exn),
    Config.configure Script.CONFIG_PATH env = Ok settings ->
    outcome (get_token settings (Script.token w)) = Ok access_token ->
    outcome (get_list_of_users fuel (configured settings) access_token
               (Script.iam w)) = Ok (Some iam_users) ->
    outcome (sync_accounts (configured settings) iam_users (Script.rucio w))
    = Raise e ->
    outcome (main fuel env w) = Raise e
    /\ Forall (fun ev => Script.is_link ev = false) (trace (main fuel env w)).
Proof.
  intros Tok Srv St tokens directory core fuel env w settings access_token
    iam_users e Conf Granted Fetched Failed.
  unfold main. rewrite Conf.
  pose proof (run_syncer_stages fuel settings w) as Stages.
  cbn zeta in Stages. rewrite Granted, Fetched, Failed in Stages.
  destruct Stages as [-> ->].
  split; [reflexivity|].
  repeat (apply Forall_app; split).
  - apply Forall_map. now apply Forall_forall.
  - apply Forall_map. now apply Forall_forall.
  - apply (account_calls_are_not_links iam_users).
    apply sync_accounts_calls_for.
Qed.

Lemma main_links_nothing_after_failed_account_pass_witness :
  outcome (sync_accounts
             (configured (Config.overwrite SampleEnv.from_variables
                            Config.unset))
             [Sample.bob; Sample.carol] (MemStore.refusing ["bob"]))
  = Raise (Error "InvalidObject")
  /\ outcome (main 3 SampleEnv.from_variables
                (Desk.world (Some "token") [Sample.bob; Sample.carol]
                   (MemStore.refusing ["bob"])))
     = Raise (Error "InvalidObject")
  /\ length (filter Script.is_link
               (trace (main 3 SampleEnv.from_variables
                         (Desk.world (Some "token") [Sample.bob; Sample.carol]
                            MemStore.empty))))
     = 3%nat.
Proof.
  split; [reflexivity|]. split; [|reflexivity].
  exact (proj1 (main_links_nothing_after_failed_account_pass _ _ _ _ _ _ 3
                  SampleEnv.from_variables
                  (Desk.world (Some "token") [Sample.bob; Sample.carol]
                     (MemStore.refusing ["bob"]))
                  _ _ _ _ eq_refl eq_refl eq_refl eq_refl)).
Defined.

(** ** The OIDC identity key *)

Lemma append_cancel_r (a b c : string) :
  (a ++ c)%string = (b ++ c)%string -> a = b.
Proof.
  revert b. induction a as [|x a IH]; intros [|y b] Eq; cbn [append] in Eq.
  - reflexivity.
  - apply (f_equal String.length) in Eq. cbn [String.length] in Eq.
    rewrite length_append in Eq. lia.
  - apply (f_equal String.length) in Eq. cbn [String.length] in Eq.
    rewrite length_append in Eq. lia.
  - injection Eq as -> Eq. now rewrite (IH b Eq).
Qed.

(** X17. For one IAM server, the OIDC identity key determines the
    subject: two subjects with the same key are the same subject.  Across
    IAM servers it does not: a subject that contains [", ISS="] can give
    the key of another subject at another server. *)
Theorem format_sub_iss_subjects :
  (forall iam_server sub1 sub2 : string,
      format_sub_iss sub1 iam_server = format_sub_iss sub2 iam_server ->
      sub1 = sub2)
  /\ format_sub_iss "a, ISS=b" "c" = format_sub_iss "a" "b, ISS=c".
Proof.
  split; [|reflexivity].
  intros iam_server sub1 sub2 Eq. unfold format_sub_iss in Eq.
  cbn [append] in Eq. injection Eq as Eq.
  now apply append_cancel_r in Eq.
Qed.

Lemma format_sub_iss_subjects_witness :
  format_sub_iss "sub-a" "https://iam.example.org"
  = format_sub_iss "sub-a" "https://iam.example.org"
  /\ "sub-a" = "sub-a".
Proof.
  split; [reflexivity|].
  exact (proj1 format_sub_iss_subjects "https://iam.example.org"
           "sub-a" "sub-a" eq_refl).
Defined.
